(** * yh_get_all_sym.py: the Yahoo Finance symbol crawler

    A shallow embedding of [src/yh_get_all_sym.py] and the properties of
    its retry policy, count extraction, block planning, fault isolation,
    prefix enumeration and symbol aggregation.

    Conventions of the embedding.
    - A Python [str] is a [string]; a character is the code point of an
      [ascii], read as Latin-1 (code points below 256).
    - A Python [int] is a [Z].
    - A Python [set] of [str] is a [gset string].
    - Code that can raise returns in [res]; an [exn] is an exception that
      derives from [Exception], which is what the HTTP client, the HTML
      parser and the builtins used here raise.
    - The network is a [session]: the outcome of the [k]-th request to a
      URL. Every URL of one run is requested by exactly one call of
      [fetch_url], so the [k]-th request to a URL is the [k]-th attempt of
      that call, whatever the interleaving of concurrent calls. *)

From Stdlib Require Import ZArith Lia List Ascii String.
From stdpp Require Import base gmap strings list pretty sorting.

Local Open Scope string_scope.
Local Open Scope list_scope.
Local Open Scope Z_scope.

(** ** Exceptions and fallible code *)

Module Py.

(** The exception classes that occur; all derive from [Exception]. *)
Inductive exn : Type :=
  | ValueError
  | TypeError
  | AttributeError
  | ClientResponseError (status : Z)   (* raise_for_status *)
  | ClientConnectionError
  | TimeoutError
  | ParserError.

Inductive res (A : Type) : Type :=
  | Ret (a : A)
  | Raise (e : exn).
Arguments Ret {A} a.
Arguments Raise {A} e.

Definition bind {A B} (m : res A) (k : A -> res B) : res B :=
  match m with
  | Ret a => k a
  | Raise e => Raise e
  end.

(** [try: m  except <classes> as e: h e] *)
Definition try_except {A} (m : res A) (classes : exn -> bool) (h : exn -> res A) : res A :=
  match m with
  | Ret a => Ret a
  | Raise e => if classes e then h e else Raise e
  end.

(** [except Exception] *)
Definition Exception (e : exn) : bool := true.

(** [except (ValueError, TypeError)] *)
Definition ValueError_or_TypeError (e : exn) : bool :=
  match e with
  | ValueError | TypeError => true
  | _ => false
  end.

(** ** Builtins on [int] and [str] *)

(** [range(start, stop, step)] for a positive [step] (the only steps the
    program uses are 1 and 100); empty otherwise. *)
Definition range (start stop step : Z) : list Z :=
  if step <=? 0 then []
  else List.map (fun i => start + step * Z.of_nat i)
                (seq 0 (Z.to_nat ((stop - start + step - 1) / step))).

(** [chr(x)], a string of one character. *)
Definition chr (x : Z) : string :=
  String (ascii_of_nat (Z.to_nat x)) EmptyString.

(** [len(s)] *)
Definition len (s : string) : Z := Z.of_nat (String.length s).

(** [str(n)] for an [int]. *)
Definition str (n : Z) : string := pretty n.

(** [s.find(sub, start)] for [start >= 0]: the lowest index at or after
    [start] where [sub] occurs, or -1. *)
Definition find (sub s : string) (start : Z) : Z :=
  match String.index (Z.to_nat start) sub s with
  | Some n => Z.of_nat n
  | None => -1
  end.

(** [s[start:stop]] for [start >= 0]; a negative [stop] counts from the
    end of the string. *)
Definition slice (s : string) (start stop : Z) : string :=
  let stop' := if stop <? 0 then Z.max 0 (len s + stop) else Z.min stop (len s) in
  String.substring (Z.to_nat start) (Z.to_nat (stop' - start)) s.

(** [c.isspace()] on the code points below 256. *)
Definition isspace (c : ascii) : bool :=
  let n := Z.of_nat (nat_of_ascii c) in
  ((9 <=? n) && (n <=? 13)) || ((28 <=? n) && (n <=? 32))
  || (n =? 133) || (n =? 160).

Fixpoint lstrip (s : string) : string :=
  match s with
  | String c s' => if isspace c then lstrip s' else s
  | EmptyString => EmptyString
  end.

Fixpoint rstrip (s : string) : string :=
  match s with
  | String c s' =>
      match rstrip s' with
      | EmptyString => if isspace c then EmptyString else String c EmptyString
      | r => String c r
      end
  | EmptyString => EmptyString
  end.

(** [s.strip()] *)
Definition strip (s : string) : string := rstrip (lstrip s).

Definition digit_value (c : ascii) : option Z :=
  let n := Z.of_nat (nat_of_ascii c) in
  if (48 <=? n) && (n <=? 57) then Some (n - 48) else None.

(** The digits of a decimal literal, most significant first: digits with
    single underscores between them. [acc] is the value read so far,
    [count] the number of digits read, [after_digit] whether the previous
    character was a digit. Returns the value and the number of digits. *)
Fixpoint int_digits (s : string) (acc : Z) (count : Z) (after_digit : bool)
  : option (Z * Z) :=
  match s with
  | EmptyString => if after_digit then Some (acc, count) else None
  | String c s' =>
      match digit_value c with
      | Some d => int_digits s' (10 * acc + d) (count + 1) true
      | None =>
          if (Ascii.eqb c "_") && after_digit then int_digits s' acc count false
          else None
      end
  end.

(** [sys.get_int_max_str_digits()], the default. *)
Definition int_max_str_digits : Z := 4300.

(** [int(s)] for a [str]: surrounding whitespace, an optional sign, then
    decimal digits; [ValueError] otherwise, and for more digits than
    [int_max_str_digits]. *)
Definition int (s : string) : res Z :=
  let body := strip s in
  let '(sign, digits) :=
    match body with
    | String "-" r => (-1, r)
    | String "+" r => (1, r)
    | _ => (1, body)
    end in
  match int_digits digits 0 0 false with
  | Some (v, count) =>
      if int_max_str_digits <? count then Raise ValueError else Ret (sign * v)
  | None => Raise ValueError
  end.

(** [s.add(x)] and [s.update(other)] on a [set]: the new value of [s]. *)
Definition add (s : gset string) (x : string) : gset string := s ∪ {[x]}.
Definition update (s other : gset string) : gset string := s ∪ other.

End Py.

Import Py.

Notation "'do' x <- m ; k" := (bind m (fun x => k))
  (at level 10, x name, m at level 100, k at level 200).
Notation "'do' ' pat <- m ; k" := (bind m (fun x => match x with pat => k end))
  (at level 10, pat pattern, m at level 100, k at level 200).

(** ** [extract_count] *)

Definition extract_count (body : string) (search_term : string) : res Z :=
  try_except
    (let start := find "Stocks (" body 0 + 8 in
     let end_ := find ")" body start in
     do count <- int (slice body start end_);
     Ret count)
    ValueError_or_TypeError
    (fun e => Ret 0).

(** ** [fetch_url]: one request with retries *)

(** The outcome of [session.get(url)], [raise_for_status()] and
    [response.text()] at the [k]-th request to [url] (from 0): the body,
    or the exception raised. *)
Definition session : Type := string -> Z -> res string.

(** What one call of [fetch_url] does, in order. *)
Inductive event : Type :=
  | Request (url : string)
  | Warning (attempt : Z) (e : exn)   (* logging.warning("Attempt {attempt + 1} failed") *)
  | Sleep (seconds : Z).              (* asyncio.sleep *)

(** The body of [for attempt in range(retries)], over the attempts that
    remain. Falling out of the loop returns [None]. *)
Fixpoint fetch_url_for (s : session) (url : string) (retries : Z) (attempts : list Z)
  : list event * res (option string) :=
  match attempts with
  | [] => ([], Ret None)
  | attempt :: rest =>
      match s url attempt with
      | Ret body => ([Request url], Ret (Some body))
      | Raise e =>
          if attempt =? retries - 1
          then ([Request url; Warning (attempt + 1) e], Raise e)
          else
            let '(tr, r) := fetch_url_for s url retries rest in
            (Request url :: Warning (attempt + 1) e :: Sleep 1 :: tr, r)
      end
  end.

Definition fetch_url (s : session) (url : string) (retries : Z)
  : list event * res (option string) :=
  fetch_url_for s url retries (range 0 retries 1).

(** The default of the parameter [retries]. *)
Definition default_retries : Z := 3.

(** ** The HTML parser

    [bs4] is not part of the repository: the program is verified for any
    parser with this interface. A [Tag] is always true in a condition. *)
Class BeautifulSoup : Type := {
  soup : Type;
  tag : Type;
  (** [BeautifulSoup(body, 'html.parser')] *)
  html_parser : string -> res soup;
  (** [soup.find('table', {'class': 'W(100%)'})] *)
  find_table : soup -> option tag;
  (** [table.find_all('tr')] *)
  find_all_tr : tag -> list tag;
  (** [row.find('td', {'aria-label': 'Symbol'})] *)
  find_symbol_td : tag -> option tag;
  (** [symbol_cell.text] *)
  text : tag -> string
}.

Section Crawler.

Context `{bs4 : BeautifulSoup}.

(** ** [process_block] *)

Definition block_url (search_term : string) (block : Z) : string :=
  "https://finance.yahoo.com/lookup/equity?s=" +:+ search_term
    +:+ "&t=A&b=" +:+ str block +:+ "&c=100".

(** The body of [for row in rows]. *)
Definition process_row (symbols : gset string) (row : tag) : gset string :=
  match find_symbol_td row with
  | Some symbol_cell =>
      let symbol := strip (text symbol_cell) in
      if String.eqb symbol "" then symbols else add symbols symbol
  | None => symbols
  end.

(** The [try] block of [process_block], from the value of [symbols] at
    its start to the value at its end. Everything that can raise comes
    before the first [symbols.add]. *)
Definition process_block_try (s : session) (url : string) (symbols : gset string)
  : res (gset string) :=
  do body <- snd (fetch_url s url default_retries);
  do soup <- match body with
             | Some body => html_parser body
             | None => Raise TypeError
             end;
  match find_table soup with
  | Some table =>
      let rows := find_all_tr table in
      Ret (fold_left process_row rows symbols)
  | None => Ret symbols
  end.

(** When the handler runs, [symbols] is still the empty set. *)
Definition process_block (s : session) (search_term : string) (block : Z)
  : res (gset string) :=
  let url := block_url search_term block in
  let symbols : gset string := ∅ in
  try_except
    (process_block_try s url symbols)
    Exception
    (fun e => Ret symbols).

(** ** [process_search_term] *)

Definition probe_url (search_term : string) : string :=
  "https://finance.yahoo.com/lookup/equity?s=" +:+ search_term
    +:+ "&t=A&b=0&c=25".

(** A coroutine object: a call of [process_block] that has not run yet. *)
Inductive coroutine : Type :=
  | ProcessBlock (s : session) (search_term : string) (block : Z).

Definition run (c : coroutine) : res (gset string) :=
  match c with
  | ProcessBlock s search_term block => process_block s search_term block
  end.

(** [asyncio.gather] on the tasks: the results in the order of the tasks, or
    an exception that one of them raised. *)
Fixpoint gather (tasks : list coroutine) : res (list (gset string)) :=
  match tasks with
  | [] => Ret []
  | c :: tasks' =>
      do r <- run c;
      do rs <- gather tasks';
      Ret (r :: rs)
  end.

(** [tasks = []; for block in range(0, min(count, 9000), 100): tasks.append(...)] *)
Definition plan_tasks (s : session) (search_term : string) (count : Z) : list coroutine :=
  fold_left (fun tasks block => tasks ++ [ProcessBlock s search_term block])
            (range 0 (Z.min count 9000) 100) [].

(** The [try] block of [process_search_term], from the value of
    [symbols] at its start to the value that the function returns.
    Everything that can raise comes before the first [symbols.update]. *)
Definition process_search_term_try (s : session) (search_term url : string)
    (symbols : gset string) : res (gset string) :=
  do body <- snd (fetch_url s url default_retries);
  do count <- match body with
              | Some body => extract_count body search_term
              | None => Raise AttributeError
              end;
  if count =? 0 then Ret symbols
  else
    let tasks := plan_tasks s search_term count in
    do results <- gather tasks;
    Ret (fold_left (fun symbols result => update symbols result) results symbols).

(** When the handler runs, [symbols] is still the empty set. *)
Definition process_search_term (s : session) (search_term : string) : res (gset string) :=
  let url := probe_url search_term in
  let symbols : gset string := ∅ in
  try_except
    (process_search_term_try s search_term url symbols)
    Exception
    (fun e => Ret symbols).

(** ** [main] *)

Definition search_chars : list string :=
  List.map chr (range 65 91 1) ++ List.map chr (range 48 58 1).

(** The state of [main]: the global set, the search terms passed to
    [process_search_term] so far, in call order, and the totals logged by
    "Total symbols so far". The progress bar, the output file and the
    final [print] are left out. *)
Record crawl : Type := {
  all_symbols : gset string;
  calls : list string;
  totals : list Z
}.

Definition crawl_start : crawl :=
  {| all_symbols := ∅; calls := []; totals := [] |}.

(** A [for] loop whose body can raise. *)
Fixpoint for_each {X S : Type} (xs : list X) (body : X -> S -> res S) (st : S) : res S :=
  match xs with
  | [] => Ret st
  | x :: xs' => do st' <- body x st; for_each xs' body st'
  end.

(** [await process_search_term(session, search_term)], recorded. *)
Definition await_process_search_term (s : session) (search_term : string) (st : crawl)
  : res (gset string * crawl) :=
  do symbols <- process_search_term s search_term;
  Ret (symbols,
       {| all_symbols := all_symbols st;
          calls := calls st ++ [search_term];
          totals := totals st |}).

(** The body of [for c3 in search_chars]. *)
Definition main_c3 (s : session) (c1 c2 c3 : string) (st : gset string * crawl)
  : res (gset string * crawl) :=
  let '(symbols, st) := st in
  let search_term := c1 +:+ c2 +:+ c3 in
  do '(additional_symbols, st) <- await_process_search_term s search_term st;
  Ret (update symbols additional_symbols, st).

(** The body of [for c2 in search_chars]. *)
Definition main_c2 (s : session) (c1 c2 : string) (st : crawl) : res crawl :=
  let search_term := c1 +:+ c2 in
  do '(symbols, st) <- await_process_search_term s search_term st;
  do '(symbols, st) <-
    (if 9000 <=? Z.of_nat (size symbols)
     then for_each search_chars (main_c3 s c1 c2) (symbols, st)
     else Ret (symbols, st));
  let all_symbols' := update (all_symbols st) symbols in
  Ret {| all_symbols := all_symbols';
         calls := calls st;
         totals := totals st ++ [Z.of_nat (size all_symbols')] |}.

Definition main (s : session) : res crawl :=
  for_each search_chars (fun c1 => for_each search_chars (main_c2 s c1)) crawl_start.


(** ** Measures of a trace of [fetch_url] *)

(** The number of requests sent. *)
Definition attempts (tr : list event) : Z :=
  Z.of_nat (List.length (List.filter (fun ev => match ev with Request _ => true | _ => false end) tr)).

(** The delays slept, in order. *)
Definition delays (tr : list event) : list Z :=
  flat_map (fun ev => match ev with Sleep d => [d] | _ => [] end) tr.

(** The trace of failed attempts numbered from [n], each followed by its
    delay. *)
Fixpoint failed_attempts (url : string) (n : Z) (errs : list exn) : list event :=
  match errs with
  | [] => []
  | e :: errs' => Request url :: Warning n e :: Sleep 1 :: failed_attempts url (n + 1) errs'
  end.

(** ** Readings of the plan and of the probe *)

Definition offset (c : coroutine) : Z :=
  match c with ProcessBlock _ _ block => block end.

(** The offsets of the blocks planned for a count. *)
Definition planned_offsets (s : session) (search_term : string) (count : Z) : list Z :=
  List.map offset (plan_tasks s search_term count).

(** The first two statements of the [try] block of [process_search_term]:
    the probe and the count read from it. *)
Definition probe_count (s : session) (search_term : string) : res Z :=
  do body <- snd (fetch_url s (probe_url search_term) default_retries);
  match body with
  | Some body => extract_count body search_term
  | None => Raise AttributeError
  end.

(** The set that a call returns, empty if it raises. *)
Definition returned (r : res (gset string)) : gset string :=
  match r with
  | Ret symbols => symbols
  | Raise _ => ∅
  end.

(** [len(symbols) >= 9000] for the result of a search term. *)
Definition saturated (s : session) (search_term : string) : bool :=
  9000 <=? Z.of_nat (size (returned (process_search_term s search_term))).

(** The symbols of one block, empty if the call raises. *)
Definition block_symbols (s : session) (search_term : string) (block : Z) : gset string :=
  returned (process_block s search_term block).

(** The symbols of one search term, empty if the call raises. *)
Definition term_symbols (s : session) (search_term : string) : gset string :=
  returned (process_search_term s search_term).

(** The 3-character extensions of a prefix, in the order of the loop over
    [c3]. *)
Definition extensions (c1 c2 : string) : list string :=
  List.map (fun c3 => c1 +:+ c2 +:+ c3) search_chars.

(** What one round of the loop over [c2] does to the state of [main]. *)
Definition prefix_calls (s : session) (c1 c2 : string) : list string :=
  (c1 +:+ c2) :: (if saturated s (c1 +:+ c2) then extensions c1 c2 else []).

Definition prefix_symbols (s : session) (c1 c2 : string) : gset string :=
  term_symbols s (c1 +:+ c2)
  ∪ (if saturated s (c1 +:+ c2)
     then ⋃ (List.map (term_symbols s) (extensions c1 c2))
     else ∅).

Definition after_prefix (s : session) (c1 c2 : string) (st : crawl) : crawl :=
  {| all_symbols := all_symbols st ∪ prefix_symbols s c1 c2;
     calls := calls st ++ prefix_calls s c1 c2;
     totals := totals st ++ [Z.of_nat (size (all_symbols st ∪ prefix_symbols s c1 c2))] |}.

(** The totals logged so far are in order and bounded by the size of the
    global set. *)
Definition totals_ordered (st : crawl) : Prop :=
  StronglySorted Z.le (totals st)
  /\ Forall (fun n => n <= Z.of_nat (size (all_symbols st))) (totals st).

(** The 2-character prefixes, first character in the outer loop. *)
Definition prefixes : list (string * string) :=
  flat_map (fun c1 => List.map (fun c2 => (c1, c2)) search_chars) search_chars.

End Crawler.

(** The page sizes in the two URLs. *)
Definition probe_page_size : Z := 25.
Definition block_page_size : Z := 100.

(** The rows of the result list that a request at [offset] with page size
    [c] asks for. *)
Definition rows (offset c : Z) : list Z := range offset (offset + c) 1.

(** The text that [extract_count] converts. *)
Definition count_text (body : string) : string :=
  let start := find "Stocks (" body 0 + 8 in
  slice body start (find ")" body start).

(** ** Test doubles *)

(** A parser for pages without a table. *)
Definition no_table : BeautifulSoup := {|
  soup := unit; tag := Empty_set;
  html_parser := fun _ => Ret tt;
  find_table := fun _ => None;
  find_all_tr := fun _ => [];
  find_symbol_td := fun _ => None;
  text := fun _ => ""
|}.

(** The lines of a text. *)
Fixpoint lines (text : string) (line : string) : list string :=
  match text with
  | EmptyString => [String.rev line]
  | String c text' =>
      if Ascii.eqb c "010" then String.rev line :: lines text' EmptyString
      else lines text' (String c line)
  end.

(** A parser for test pages: a page that is not empty is a table, each of
    its lines is a row, and the line is the text of the Symbol cell. *)
Definition line_table : BeautifulSoup := {|
  soup := string; tag := string;
  html_parser := fun body => Ret body;
  find_table := fun body => if String.eqb body "" then None else Some body;
  find_all_tr := fun table => lines table EmptyString;
  find_symbol_td := fun row => Some row;
  text := fun row => row
|}.

(** The scenario of the spec for CC: the probe reports 550 matches, the
    block at offset 500 fails at every attempt, and every other block
    shows two symbols named after its offset. *)
Definition one_bad_block : session := fun url k =>
  if String.eqb url (probe_url "CC") then Ret "Stocks (550)"
  else if String.eqb url (block_url "CC" 500) then Raise TimeoutError
  else
    match List.find (fun b => String.eqb url (block_url "CC" b)) (range 0 9000 100) with
    | Some b => Ret ("CC" +:+ str b +:+ String "010" ("CC" +:+ str (b + 1)))
    | None => Raise (ClientResponseError 404)
    end.

(** The same server, with another page for the probe of one term. *)
Definition with_probe_page (s : session) (search_term page : string) : session :=
  fun url k => if String.eqb url (probe_url search_term) then Ret page else s url k.

(** The server reports 15000 matches for AA and fails every other
    request with status 500. *)
Definition saturated_but_failing : session := fun url k =>
  if String.eqb url (probe_url "AA") then Ret "Stocks (15000)"
  else Raise (ClientResponseError 500).

(** The server fails the first two requests to any URL and answers the
    third. *)
Definition third_time_lucky : session := fun url k =>
  if k =? 2 then Ret "Stocks (42)" else Raise TimeoutError.

(** No request ever succeeds. *)
Definition unreachable : session := fun url k => Raise ClientConnectionError.

(** ** Readings of pages *)

(** A string of decimal digits. *)
Definition is_digits (s : string) : Prop :=
  Forall (fun c => digit_value c <> None) (list_ascii_of_string s).

Section Pages.

Context `{bs4 : BeautifulSoup}.

(** The symbol that a row adds, if any. *)
Definition row_symbol (row : tag) (x : string) : Prop :=
  exists symbol_cell,
    find_symbol_td row = Some symbol_cell
    /\ x = strip (text symbol_cell) /\ x <> "".

(** The table that a block request shows, if the request, the parser and
    the search for the table all succeed. *)
Definition block_table (s : session) (search_term : string) (block : Z) (table : tag) : Prop :=
  exists body soup,
    snd (fetch_url s (block_url search_term block) default_retries) = Ret (Some body)
    /\ html_parser body = Ret soup
    /\ find_table soup = Some table.

End Pages.

(** * Properties *)

(** ** [range] *)

Lemma range_length (start stop step : Z) :
  0 < step ->
  List.length (range start stop step) = Z.to_nat ((stop - start + step - 1) / step).
Proof.
  intros Hstep. unfold range.
  destruct (Z.leb_spec step 0); [lia|].
  now rewrite length_map, length_seq.
Qed.

Lemma range_count_lt (start stop step i : Z) :
  0 < step -> (i < (stop - start + step - 1) / step <-> start + step * i < stop).
Proof.
  intros Hstep. split; intros H.
  - assert (i + 1 <= (stop - start + step - 1) / step) as H1 by lia.
    assert (step * (i + 1) <= stop - start + step - 1); [|lia].
    etransitivity; [apply Z.mul_le_mono_nonneg_l; [lia|exact H1]|].
    apply Z.mul_div_le; lia.
  - assert (i + 1 <= (stop - start + step - 1) / step); [|lia].
    apply Z.div_le_lower_bound; lia.
Qed.

Lemma in_range (start stop step x : Z) :
  0 < step ->
  In x (range start stop step) <->
  start <= x < stop /\ exists k, 0 <= k /\ x = start + step * k.
Proof.
  intros Hstep. unfold range.
  destruct (Z.leb_spec step 0); [lia|].
  rewrite in_map_iff. split.
  - intros (i & <- & Hi). apply in_seq in Hi.
    assert (Z.of_nat i < (stop - start + step - 1) / step) as Hlt by lia.
    apply range_count_lt in Hlt; [|lia].
    split; [nia|]. exists (Z.of_nat i). lia.
  - intros (Hx & k & Hk & ->).
    exists (Z.to_nat k). rewrite Z2Nat.id by lia. split; [reflexivity|].
    apply in_seq.
    assert (k < (stop - start + step - 1) / step) by (apply range_count_lt; lia).
    lia.
Qed.

Lemma range_NoDup (start stop step : Z) : NoDup (range start stop step).
Proof.
  unfold range. destruct (Z.leb_spec step 0); [constructor|].
  apply NoDup_fmap_2; [|apply NoDup_ListNoDup, seq_NoDup].
  intros i j Hij. nia.
Qed.



(** The loop that appends one task per block builds the list of the
    blocks' coroutines, in the order of [range]. *)
Lemma plan_tasks_map (s : session) (search_term : string) (count : Z) :
  plan_tasks s search_term count
  = List.map (ProcessBlock s search_term) (range 0 (Z.min count 9000) 100).
Proof.
  unfold plan_tasks.
  enough (forall bs acc,
    fold_left (fun tasks block => tasks ++ [ProcessBlock s search_term block]) bs acc
    = acc ++ List.map (ProcessBlock s search_term) bs) as H by apply (H _ []).
  induction bs as [|b bs IH]; intros acc; simpl.
  - now rewrite app_nil_r.
  - now rewrite IH, <- app_assoc.
Qed.

Lemma planned_offsets_range (s : session) (search_term : string) (count : Z) :
  planned_offsets s search_term count = range 0 (Z.min count 9000) 100.
Proof.
  unfold planned_offsets. rewrite plan_tasks_map, map_map. simpl. apply map_id.
Qed.

(** C2. For a probed count greater than 0 the planned block offsets are
    exactly the non-negative multiples of 100 strictly below
    [min(count, 9000)], each planned once; so at most 90 blocks are planned
    for one prefix. *)
Theorem planned_blocks_exact (s : session) (search_term : string) (count : Z) :
  0 < count ->
  (forall x, In x (planned_offsets s search_term count)
             <-> (exists k, x = 100 * k) /\ 0 <= x < Z.min count 9000)
  /\ NoDup (planned_offsets s search_term count)
  /\ (List.length (plan_tasks s search_term count) <= 90)%nat.
Proof.
  intros Hcount. rewrite planned_offsets_range. split; [|split].
  - intros x. rewrite in_range by lia. split.
    + intros (Hx & k & _ & ->). split; [now exists k|lia].
    + intros ((k & ->) & Hx). split; [lia|]. exists k. lia.
  - apply range_NoDup.
  - rewrite plan_tasks_map, length_map, range_length by lia.
    assert ((Z.min count 9000 - 0 + 100 - 1) / 100 < 91); [|lia].
    apply Z.div_lt_upper_bound; lia.
Qed.

(** C5, as the code has it. For a probed count greater than 0 the plan
    starts at offset 0 again: the first planned block, requested with page
    size 100, asks for every row that the probe, requested at offset 0 with
    page size 25, already asked for. *)
Theorem planned_blocks_cover_probe (s : session) (search_term : string) (count : Z) :
  0 < count ->
  hd_error (planned_offsets s search_term count) = Some 0
  /\ probe_url search_term
     = "https://finance.yahoo.com/lookup/equity?s=" +:+ search_term
         +:+ "&t=A&b=" +:+ str 0 +:+ "&c=" +:+ str probe_page_size
  /\ block_url search_term 0
     = "https://finance.yahoo.com/lookup/equity?s=" +:+ search_term
         +:+ "&t=A&b=" +:+ str 0 +:+ "&c=" +:+ str block_page_size
  /\ forall row, In row (rows 0 probe_page_size) -> In row (rows 0 block_page_size).
Proof.
  intros Hcount. repeat split.
  - rewrite planned_offsets_range. unfold range. simpl.
    assert (1 <= (Z.min count 9000 - 0 + 100 - 1) / 100) as H
      by (apply Z.div_le_lower_bound; lia).
    destruct (Z.to_nat ((Z.min count 9000 - 0 + 100 - 1) / 100)) eqn:E; [lia|].
    reflexivity.
  - unfold rows, probe_page_size, block_page_size. intros row Hrow.
    apply in_range in Hrow; [|lia]. apply in_range; [lia|].
    destruct Hrow as (Hr & k & Hk & ->). split; [lia|]. exists k. lia.
Qed.


(** The scenarios of the spec: a count of 42 plans the block at offset 0,
    a count of 15000 plans the 90 blocks up to offset 8900. *)
Example planned_offsets_42 : planned_offsets unreachable "AA" 42 = [0].
Proof. reflexivity. Qed.

Example planned_offsets_15000 :
  planned_offsets unreachable "BB" 15000 = range 0 9000 100
  /\ List.length (planned_offsets unreachable "BB" 15000) = 90%nat
  /\ last (planned_offsets unreachable "BB" 15000) = Some 8900.
Proof. repeat split. Qed.

(** A count that is zero or negative plans nothing. *)
Example planned_offsets_negative : planned_offsets unreachable "AA" (-5) = [].
Proof. reflexivity. Qed.

Lemma planned_blocks_exact_witness :
  0 < 15000 /\
  ((forall x, In x (planned_offsets saturated_but_failing "BB" 15000)
              <-> (exists k, x = 100 * k) /\ 0 <= x < Z.min 15000 9000)
   /\ NoDup (planned_offsets saturated_but_failing "BB" 15000)
   /\ (List.length (plan_tasks saturated_but_failing "BB" 15000) <= 90)%nat).
Proof.
  split; [lia|].
  apply (planned_blocks_exact saturated_but_failing "BB" 15000). lia.
Defined.

(** C5, as the spec has it, fails: for a count of 42 the only planned
    block is at offset 0, and it asks for row 0, which the probe asked for
    as well. *)
Lemma planned_blocks_exclude_probe_counterexample :
  ~ (forall b row,
       In b (planned_offsets saturated_but_failing "AA" 42) ->
       In row (rows b block_page_size) ->
       ~ In row (rows 0 probe_page_size)).
Proof.
  intros H. apply (H 0 0); vm_compute; auto.
Qed.

Lemma planned_blocks_cover_probe_witness :
  0 < 42 /\
  hd_error (planned_offsets saturated_but_failing "AA" 42) = Some 0.
Proof.
  split; [lia|].
  apply (planned_blocks_cover_probe saturated_but_failing "AA" 42). lia.
Defined.

(** ** [extract_count] *)




Lemma extract_count_unfold (body search_term : string) :
  extract_count body search_term
  = match int (count_text body) with
    | Ret v => Ret v
    | Raise e => if ValueError_or_TypeError e then Ret 0 else Raise e
    end.
Proof.
  unfold extract_count, count_text, try_except, bind.
  now destruct (int _).
Qed.




(** ** [fetch_url] *)

Lemma fetch_url_default (s : session) (url : string) :
  fetch_url s url default_retries = fetch_url_for s url 3 [0; 1; 2].
Proof. reflexivity. Qed.

(** C3. With the default of 3 retries [fetch_url] sends at most 3
    requests. If attempt [k] is the first to succeed, it returns the body
    of that attempt after [k - 1] failed attempts, each followed by one
    delay of 1 second. If all 3 attempts fail, it raises the error of the
    third, after 2 delays. *)
Theorem fetch_url_retry_policy (s : session) (url : string) :
  attempts (fetch_url s url default_retries).1 <= 3
  /\ (forall k body,
        1 <= k <= 3 ->
        (forall j, 0 <= j < k - 1 -> exists e, s url j = Raise e) ->
        s url (k - 1) = Ret body ->
        exists errs,
          Z.of_nat (List.length errs) = k - 1
          /\ fetch_url s url default_retries
             = (failed_attempts url 1 errs ++ [Request url], Ret (Some body))
          /\ attempts (fetch_url s url default_retries).1 = k
          /\ delays (fetch_url s url default_retries).1 = repeat 1 (Z.to_nat (k - 1)))
  /\ (forall e0 e1 e2,
        s url 0 = Raise e0 -> s url 1 = Raise e1 -> s url 2 = Raise e2 ->
        fetch_url s url default_retries
        = (failed_attempts url 1 [e0; e1] ++ [Request url; Warning 3 e2], Raise e2)
        /\ attempts (fetch_url s url default_retries).1 = 3
        /\ delays (fetch_url s url default_retries).1 = [1; 1]).
Proof.
  rewrite fetch_url_default. split; [|split].
  - unfold attempts. simpl. destruct (s url 0); [simpl; lia|].
    destruct (s url 1); [simpl; lia|].
    destruct (s url 2); simpl; lia.
  - intros k body Hk Hfail Hok.
    assert (k = 1 \/ k = 2 \/ k = 3) as [-> | [-> | ->]] by lia.
    + change (s url 0 = Ret body) in Hok.
      exists []. simpl. rewrite Hok. auto.
    + change (s url 1 = Ret body) in Hok.
      destruct (Hfail 0) as [e0 H0]; [lia|].
      exists [e0]. simpl. rewrite H0, Hok. auto.
    + change (s url 2 = Ret body) in Hok.
      destruct (Hfail 0) as [e0 H0]; [lia|].
      destruct (Hfail 1) as [e1 H1]; [lia|].
      exists [e0; e1]. simpl. rewrite H0, H1, Hok. auto.
  - intros e0 e1 e2 H0 H1 H2. simpl. rewrite H0, H1, H2. auto.
Qed.

(** When no request succeeds, the three attempts are made with a delay
    after the first and the second, and the last error is raised. *)
Example fetch_url_unreachable :
  fetch_url unreachable "u" default_retries
  = ([Request "u"; Warning 1 ClientConnectionError; Sleep 1;
      Request "u"; Warning 2 ClientConnectionError; Sleep 1;
      Request "u"; Warning 3 ClientConnectionError],
     Raise ClientConnectionError).
Proof. reflexivity. Qed.

(** Without retries the loop does not run and the function returns
    [None]. *)
Example fetch_url_no_retries : fetch_url unreachable "u" 0 = ([], Ret None).
Proof. reflexivity. Qed.

(** The scenario of the spec: attempts 1 and 2 fail, attempt 3 succeeds;
    the body of attempt 3 is returned after exactly 2 delays. *)
Lemma fetch_url_retry_policy_witness :
  1 <= 3 <= 3
  /\ (forall j, 0 <= j < 3 - 1 -> exists e, third_time_lucky "u" j = Raise e)
  /\ third_time_lucky "u" (3 - 1) = Ret "Stocks (42)"
  /\ exists errs,
       Z.of_nat (List.length errs) = 3 - 1
       /\ fetch_url third_time_lucky "u" default_retries
          = (failed_attempts "u" 1 errs ++ [Request "u"], Ret (Some "Stocks (42)"))
       /\ attempts (fetch_url third_time_lucky "u" default_retries).1 = 3
       /\ delays (fetch_url third_time_lucky "u" default_retries).1 = repeat 1 (Z.to_nat (3 - 1)).
Proof.
  assert (forall j, 0 <= j < 3 - 1 -> exists e, third_time_lucky "u" j = Raise e) as Hfail.
  { intros j Hj. exists TimeoutError. unfold third_time_lucky.
    destruct (Z.eqb_spec j 2); [lia|reflexivity]. }
  split; [lia|]. split; [exact Hfail|]. split; [reflexivity|].
  apply (proj1 (proj2 (fetch_url_retry_policy third_time_lucky "u")) 3 "Stocks (42)");
    [lia | exact Hfail | reflexivity].
Defined.

(** ** Fault isolation in [process_block] and [process_search_term] *)

Lemma try_except_Exception {A : Type} (m : res A) (a : A) :
  try_except m Exception (fun e => Ret a)
  = Ret (match m with Ret x => x | Raise _ => a end).
Proof. now destruct m. Qed.

Lemma fetch_url_for_ext (s s' : session) (url : string) (retries : Z) (todo : list Z) :
  (forall k, s' url k = s url k) ->
  fetch_url_for s' url retries todo = fetch_url_for s url retries todo.
Proof.
  intros Hext. induction todo as [|k todo IH]; simpl; [reflexivity|].
  now rewrite Hext, IH.
Qed.


Lemma fold_left_update (results : list (gset string)) (symbols : gset string) :
  fold_left (fun symbols result => update symbols result) results symbols
  = symbols ∪ ⋃ results.
Proof.
  revert symbols. induction results as [|r results IH]; intros symbols; simpl.
  - symmetry. apply (right_id_L ∅ (∪)).
  - rewrite IH. unfold update. symmetry. apply (assoc_L (∪)).
Qed.

Section Isolation.

Context `{bs4 : BeautifulSoup}.

Lemma process_block_ret (s : session) (search_term : string) (block : Z) :
  process_block s search_term block = Ret (block_symbols s search_term block).
Proof.
  unfold block_symbols, process_block. now rewrite try_except_Exception.
Qed.

Lemma process_block_ext (s s' : session) (search_term : string) (block : Z) :
  (forall k, s' (block_url search_term block) k = s (block_url search_term block) k) ->
  process_block s' search_term block = process_block s search_term block.
Proof.
  intros Hext. unfold process_block, process_block_try, fetch_url.
  now rewrite (fetch_url_for_ext s s').
Qed.


Lemma gather_blocks (s : session) (search_term : string) (blocks : list Z) :
  gather (List.map (ProcessBlock s search_term) blocks)
  = Ret (List.map (block_symbols s search_term) blocks).
Proof.
  induction blocks as [|b blocks IH]; simpl; [reflexivity|].
  now rewrite process_block_ret, IH.
Qed.

Lemma process_search_term_try_eq (s : session) (search_term : string) :
  process_search_term_try s search_term (probe_url search_term) ∅
  = do count <- probe_count s search_term;
    Ret (⋃ (List.map (block_symbols s search_term) (planned_offsets s search_term count))).
Proof.
  unfold process_search_term_try, probe_count.
  destruct (snd (fetch_url s (probe_url search_term) default_retries)) as [[body|]|e];
    simpl; try reflexivity.
  destruct (extract_count body search_term) as [count|e]; simpl; [|reflexivity].
  destruct (Z.eqb_spec count 0) as [->|Hne]; [reflexivity|].
  rewrite planned_offsets_range, plan_tasks_map, gather_blocks. simpl.
  now rewrite fold_left_update, (left_id_L ∅ (∪)).
Qed.

Lemma process_search_term_ret (s : session) (search_term : string) :
  process_search_term s search_term = Ret (term_symbols s search_term).
Proof.
  unfold term_symbols, process_search_term. now rewrite try_except_Exception.
Qed.

Lemma term_symbols_eq (s : session) (search_term : string) :
  term_symbols s search_term
  = match probe_count s search_term with
    | Ret count =>
        ⋃ (List.map (block_symbols s search_term) (planned_offsets s search_term count))
    | Raise _ => ∅
    end.
Proof.
  unfold term_symbols, process_search_term.
  rewrite try_except_Exception, process_search_term_try_eq.
  now destruct (probe_count s search_term).
Qed.

End Isolation.

(** ** The loops of [main] *)

Lemma for_each_ret {X S : Type} (xs : list X) (body : X -> S -> res S) (f : X -> S -> S) :
  (forall x st, body x st = Ret (f x st)) ->
  forall st, for_each xs body st = Ret (fold_left (fun st x => f x st) xs st).
Proof.
  intros Hbody. induction xs as [|x xs IH]; intros st; simpl; [reflexivity|].
  now rewrite Hbody; simpl.
Qed.

Lemma fold_left_flat_map {X Y S : Type} (f : S -> Y -> S) (g : X -> list Y) (xs : list X) :
  forall st, fold_left f (flat_map g xs) st
             = fold_left (fun st x => fold_left f (g x) st) xs st.
Proof.
  induction xs as [|x xs IH]; intros st; simpl; [reflexivity|].
  now rewrite fold_left_app, IH.
Qed.

Lemma fold_left_map {X Y S : Type} (f : S -> Y -> S) (g : X -> Y) (xs : list X) :
  forall st, fold_left f (List.map g xs) st = fold_left (fun st x => f st (g x)) xs st.
Proof.
  induction xs as [|x xs IH]; intros st; simpl; [reflexivity|]. apply IH.
Qed.

Lemma fold_left_pointwise {X S : Type} (f g : S -> X -> S) (xs : list X) :
  (forall st x, f st x = g st x) ->
  forall st, fold_left f xs st = fold_left g xs st.
Proof.
  intros Hfg. induction xs as [|x xs IH]; intros st; simpl; [reflexivity|].
  now rewrite Hfg, IH.
Qed.

Section Orchestrator.

Context `{bs4 : BeautifulSoup}.

Lemma await_process_search_term_ret (s : session) (search_term : string) (st : crawl) :
  await_process_search_term s search_term st
  = Ret (term_symbols s search_term,
         {| all_symbols := all_symbols st;
            calls := calls st ++ [search_term];
            totals := totals st |}).
Proof.
  unfold await_process_search_term. now rewrite process_search_term_ret.
Qed.

Lemma main_c3_loop (s : session) (c1 c2 : string) (cs : list string) :
  forall symbols st,
    for_each cs (main_c3 s c1 c2) (symbols, st)
    = Ret (symbols ∪ ⋃ (List.map (fun c3 => term_symbols s (c1 +:+ c2 +:+ c3)) cs),
           {| all_symbols := all_symbols st;
              calls := calls st ++ List.map (fun c3 => c1 +:+ c2 +:+ c3) cs;
              totals := totals st |}).
Proof.
  induction cs as [|c3 cs IH]; intros symbols st; simpl.
  - rewrite app_nil_r, (right_id_L ∅ (∪)). now destruct st.
  - rewrite await_process_search_term_ret. simpl. rewrite IH. simpl.
    unfold update. now rewrite (assoc_L (∪)), <- app_assoc.
Qed.

Lemma main_c2_ret (s : session) (c1 c2 : string) (st : crawl) :
  main_c2 s c1 c2 st = Ret (after_prefix s c1 c2 st).
Proof.
  unfold main_c2, after_prefix, prefix_symbols, prefix_calls.
  rewrite await_process_search_term_ret. cbn [bind].
  unfold saturated, extensions. fold (term_symbols s (c1 +:+ c2)).
  destruct (9000 <=? Z.of_nat (size (term_symbols s (c1 +:+ c2)))).
  - rewrite main_c3_loop. cbn [bind all_symbols calls totals]. unfold update.
    now rewrite map_map, (assoc_L (∪)), <- app_assoc.
  - cbn [bind all_symbols calls totals]. unfold update.
    now rewrite (right_id_L ∅ (∪)).
Qed.

(** [main] returns, with the state that the 1296 rounds give. *)
Lemma main_ret (s : session) :
  main s = Ret (fold_left (fun st p => after_prefix s p.1 p.2 st) prefixes crawl_start).
Proof.
  unfold main, prefixes.
  rewrite fold_left_flat_map.
  erewrite (for_each_ret search_chars _
             (fun c1 st => fold_left (fun st c2 => after_prefix s c1 c2 st) search_chars st)).
  - apply (f_equal Ret), fold_left_pointwise. intros st c1. now rewrite fold_left_map.
  - intros c1 st. apply for_each_ret. intros c2 st'. apply main_c2_ret.
Qed.

Lemma rounds_calls (s : session) (ps : list (string * string)) :
  forall st,
    calls (fold_left (fun st p => after_prefix s p.1 p.2 st) ps st)
    = calls st ++ flat_map (fun p => prefix_calls s p.1 p.2) ps.
Proof.
  induction ps as [|p ps IH]; intros st; simpl.
  - now rewrite app_nil_r.
  - rewrite IH. simpl. now rewrite <- app_assoc.
Qed.

Lemma rounds_all_symbols (s : session) (ps : list (string * string)) :
  forall st,
    all_symbols (fold_left (fun st p => after_prefix s p.1 p.2 st) ps st)
    = all_symbols st ∪ ⋃ (List.map (fun p => prefix_symbols s p.1 p.2) ps).
Proof.
  induction ps as [|p ps IH]; intros st; simpl.
  - now rewrite (right_id_L ∅ (∪)).
  - rewrite IH. simpl. now rewrite (assoc_L (∪)).
Qed.

End Orchestrator.

(** ** The alphabet and the enumeration of prefixes *)

Lemma search_chars_eq :
  search_chars
  = ["A"; "B"; "C"; "D"; "E"; "F"; "G"; "H"; "I"; "J"; "K"; "L"; "M";
     "N"; "O"; "P"; "Q"; "R"; "S"; "T"; "U"; "V"; "W"; "X"; "Y"; "Z";
     "0"; "1"; "2"; "3"; "4"; "5"; "6"; "7"; "8"; "9"].
Proof. reflexivity. Qed.

(** Every element of the alphabet is one character. *)
Lemma search_chars_single (c : string) :
  In c search_chars -> exists a, c = String a EmptyString.
Proof.
  rewrite search_chars_eq. simpl.
  intros H. repeat (destruct H as [<- | H]; [eauto|]). destruct H.
Qed.

Lemma flat_map_flat_map {X Y W : Type} (f : Y -> list W) (g : X -> list Y) (xs : list X) :
  flat_map f (flat_map g xs) = flat_map (fun x => flat_map f (g x)) xs.
Proof.
  induction xs as [|x xs IH]; simpl; [reflexivity|].
  now rewrite flat_map_app, IH.
Qed.

Lemma flat_map_map {X Y W : Type} (f : Y -> list W) (g : X -> Y) (xs : list X) :
  flat_map f (List.map g xs) = flat_map (fun x => f (g x)) xs.
Proof.
  induction xs as [|x xs IH]; simpl; [reflexivity|]. now rewrite IH.
Qed.

Lemma flat_map_pointwise_in {X Y : Type} (f g : X -> list Y) (xs : list X) :
  (forall x, In x xs -> f x = g x) -> flat_map f xs = flat_map g xs.
Proof.
  induction xs as [|x xs IH]; intros H; simpl; [reflexivity|].
  rewrite H, IH; auto with datatypes.
Qed.

Lemma filter_flat_map {X Y : Type} (p : Y -> bool) (f : X -> list Y) (xs : list X) :
  List.filter p (flat_map f xs) = flat_map (fun x => List.filter p (f x)) xs.
Proof.
  induction xs as [|x xs IH]; simpl; [reflexivity|].
  now rewrite List.filter_app, IH.
Qed.

Lemma flat_map_singleton {X Y : Type} (f : X -> Y) (xs : list X) :
  flat_map (fun x => [f x]) xs = List.map f xs.
Proof.
  induction xs as [|x xs IH]; simpl; [reflexivity|]. now rewrite IH.
Qed.

(** The terms of two characters among the calls of one round: the prefix
    itself. *)
Lemma filter_extensions (c1 c2 : string) :
  In c1 search_chars -> In c2 search_chars ->
  List.filter (fun t => Nat.eqb (String.length t) 2) (extensions c1 c2) = [].
Proof.
  intros [a1 ->]%search_chars_single [a2 ->]%search_chars_single.
  unfold extensions. rewrite search_chars_eq. reflexivity.
Qed.

Section Enumeration.

Context `{bs4 : BeautifulSoup}.

Lemma filter_prefix_calls (s : session) (c1 c2 : string) :
  In c1 search_chars -> In c2 search_chars ->
  List.filter (fun t => Nat.eqb (String.length t) 2) (prefix_calls s c1 c2) = [c1 +:+ c2].
Proof.
  intros H1 H2. unfold prefix_calls.
  assert (Nat.eqb (String.length (c1 +:+ c2)) 2 = true) as Hlen.
  { apply search_chars_single in H1 as [a1 ->].
    apply search_chars_single in H2 as [a2 ->]. reflexivity. }
  cbn [List.filter]. rewrite Hlen. f_equal.
  destruct (saturated s (c1 +:+ c2)); [|reflexivity].
  now apply filter_extensions.
Qed.

Lemma main_calls (s : session) :
  exists st,
    main s = Ret st
    /\ calls st
       = flat_map (fun c1 => flat_map (fun c2 => prefix_calls s c1 c2) search_chars)
           search_chars.
Proof.
  eexists. split; [apply main_ret|].
  rewrite rounds_calls. simpl calls. rewrite app_nil_l.
  unfold prefixes. rewrite flat_map_flat_map.
  apply flat_map_pointwise_in. intros c1 _. now rewrite flat_map_map.
Qed.

(** C7. The alphabet is A to Z followed by 0 to 9. [main] calls
    [process_search_term] on the 36 x 36 prefixes of two characters, the
    first character in the outer loop and the second in the inner loop,
    and when a prefix is refined its 36 extensions are called right after
    it, before the next prefix of two characters. *)
Theorem main_enumeration (s : session) :
  search_chars
  = ["A"; "B"; "C"; "D"; "E"; "F"; "G"; "H"; "I"; "J"; "K"; "L"; "M";
     "N"; "O"; "P"; "Q"; "R"; "S"; "T"; "U"; "V"; "W"; "X"; "Y"; "Z";
     "0"; "1"; "2"; "3"; "4"; "5"; "6"; "7"; "8"; "9"]
  /\ exists st,
       main s = Ret st
       /\ calls st
          = flat_map (fun c1 =>
              flat_map (fun c2 =>
                (c1 +:+ c2)
                  :: (if saturated s (c1 +:+ c2)
                      then List.map (fun c3 => c1 +:+ c2 +:+ c3) search_chars
                      else []))
                search_chars)
              search_chars
       /\ List.filter (fun t => Nat.eqb (String.length t) 2) (calls st)
          = flat_map (fun c1 => List.map (fun c2 => c1 +:+ c2) search_chars) search_chars
       /\ List.length (List.filter (fun t => Nat.eqb (String.length t) 2) (calls st))
          = 1296%nat.
Proof.
  split; [apply search_chars_eq|].
  destruct (main_calls s) as (st & Hmain & Hcalls).
  exists st. split; [exact Hmain|]. split; [exact Hcalls|].
  assert (List.filter (fun t => Nat.eqb (String.length t) 2) (calls st)
          = flat_map (fun c1 => List.map (fun c2 => c1 +:+ c2) search_chars) search_chars)
    as Hfilter.
  { rewrite Hcalls, filter_flat_map.
    apply flat_map_pointwise_in. intros c1 H1.
    rewrite filter_flat_map, <- flat_map_singleton.
    apply flat_map_pointwise_in. intros c2 H2.
    now apply filter_prefix_calls. }
  split; [exact Hfilter|]. rewrite Hfilter. reflexivity.
Qed.

End Enumeration.

(** ** Refinement *)

Lemma not_in_forallb (t : string) (l : list string) :
  forallb (fun x => negb (String.eqb x t)) l = true -> ~ In t l.
Proof.
  intros Hall Hin. rewrite forallb_forall in Hall.
  apply Hall in Hin. now rewrite String.eqb_refl in Hin.
Qed.

Section Refinement.

Context `{bs4 : BeautifulSoup}.

Lemma in_calls (s : session) (st : crawl) (t : string) :
  main s = Ret st ->
  In t (calls st) <->
  exists c1 c2, In c1 search_chars /\ In c2 search_chars /\ In t (prefix_calls s c1 c2).
Proof.
  intros Hmain. destruct (main_calls s) as (st' & Hmain' & Hcalls).
  rewrite Hmain in Hmain'. injection Hmain' as <-. rewrite Hcalls.
  rewrite in_flat_map. split.
  - intros (c1 & H1 & Hin). apply in_flat_map in Hin as (c2 & H2 & Hin). eauto.
  - intros (c1 & c2 & H1 & H2 & Hin). exists c1. split; [exact H1|].
    apply in_flat_map. eauto.
Qed.

(** C1, as the code has it. For a prefix of two characters, its 36
    extensions are processed if and only if the set that
    [process_search_term] returned for the prefix has at least 9000
    elements: the decision is a function of the number of distinct symbols
    collected for the prefix. *)
Theorem refinement_iff_saturated (s : session) (st : crawl) (c1 c2 c3 : string) :
  main s = Ret st ->
  In c1 search_chars -> In c2 search_chars -> In c3 search_chars ->
  exists symbols,
    process_search_term s (c1 +:+ c2) = Ret symbols
    /\ (In (c1 +:+ c2 +:+ c3) (calls st) <-> 9000 <= Z.of_nat (size symbols)).
Proof.
  intros Hmain H1 H2 H3.
  exists (term_symbols s (c1 +:+ c2)). split; [apply process_search_term_ret|].
  rewrite (in_calls s st _ Hmain). split.
  - intros (c1' & c2' & H1' & H2' & Hin).
    destruct (search_chars_single _ H1) as [a1 ->].
    destruct (search_chars_single _ H2) as [a2 ->].
    destruct (search_chars_single _ H3) as [a3 ->].
    destruct (search_chars_single _ H1') as [a1' ->].
    destruct (search_chars_single _ H2') as [a2' ->].
    unfold prefix_calls in Hin. destruct Hin as [Heq | Hin]; [discriminate Heq|].
    destruct (saturated s _) eqn:Hsat; [|destruct Hin].
    unfold extensions in Hin. apply in_map_iff in Hin as (c3' & Heq & H3').
    destruct (search_chars_single _ H3') as [a3' ->].
    injection Heq as -> -> ->.
    unfold saturated in Hsat. apply Z.leb_le in Hsat. exact Hsat.
  - intros Hsat. exists c1, c2. split; [exact H1|]. split; [exact H2|].
    unfold prefix_calls. right.
    replace (saturated s (c1 +:+ c2)) with true.
    + unfold extensions. apply in_map_iff. eauto.
    + symmetry. unfold saturated. apply Z.leb_le. exact Hsat.
Qed.

(** C8. Every search term that [main] processes has two or three
    characters: processing an extension of three characters never leads to
    a longer term, whatever the server answers for it. *)
Theorem refinement_single_level (s : session) (st : crawl) (t : string) :
  main s = Ret st ->
  In t (calls st) ->
  String.length t = 2%nat \/ String.length t = 3%nat.
Proof.
  intros Hmain Hin. apply (in_calls s st _ Hmain) in Hin as (c1 & c2 & H1 & H2 & Hin).
  destruct (search_chars_single _ H1) as [a1 ->].
  destruct (search_chars_single _ H2) as [a2 ->].
  unfold prefix_calls in Hin. destruct Hin as [<- | Hin]; [left; reflexivity|].
  destruct (saturated s _); [|destruct Hin].
  unfold extensions in Hin. apply in_map_iff in Hin as (c3 & <- & H3).
  destruct (search_chars_single _ H3) as [a3 ->]. right. reflexivity.
Qed.

End Refinement.

(** C1, as the spec has it, fails: the probe of AA reports 15000 matches,
    every block request fails, the prefix yields no symbol and none of its
    extensions is processed. *)
Lemma refinement_iff_count_counterexample :
  exists st,
    main (bs4 := no_table) saturated_but_failing = Ret st
    /\ probe_count saturated_but_failing "AA" = Ret 15000
    /\ ~ (In "AAA" (calls st) <-> 9000 <= 15000).
Proof.
  eexists. split; [vm_compute; reflexivity|]. split; [reflexivity|].
  intros [_ H]. specialize (H ltac:(lia)). revert H.
  apply not_in_forallb. vm_compute. reflexivity.
Qed.

Lemma in_search_chars_A : In "A" search_chars.
Proof. rewrite search_chars_eq. simpl. auto. Qed.

(** With the server that reports 15000 matches for AA and fails every
    block, AA returns no symbol and AAA is not processed. *)
Lemma refinement_iff_saturated_witness :
  exists st symbols,
    main (bs4 := no_table) saturated_but_failing = Ret st
    /\ In "A" search_chars
    /\ process_search_term (bs4 := no_table) saturated_but_failing "AA" = Ret symbols
    /\ (In "AAA" (calls st) <-> 9000 <= Z.of_nat (size symbols)).
Proof.
  destruct (main_calls (bs4 := no_table) saturated_but_failing) as (st & Hmain & _).
  destruct (refinement_iff_saturated (bs4 := no_table) saturated_but_failing st "A" "A" "A"
              Hmain in_search_chars_A in_search_chars_A in_search_chars_A)
    as (symbols & Hret & Hiff).
  exists st, symbols.
  split; [exact Hmain|]. split; [exact in_search_chars_A|].
  split; [exact Hret|exact Hiff].
Defined.

(** The prefix AA is processed, and it has two characters. *)
Lemma refinement_single_level_witness :
  exists st,
    main (bs4 := no_table) saturated_but_failing = Ret st
    /\ In "AA" (calls st)
    /\ (String.length "AA" = 2%nat \/ String.length "AA" = 3%nat).
Proof.
  destruct (main_calls (bs4 := no_table) saturated_but_failing) as (st & Hmain & _).
  assert (In "AA" (calls st)) as Hin.
  { apply (in_calls (bs4 := no_table) saturated_but_failing st "AA" Hmain).
    exists "A", "A". split; [exact in_search_chars_A|]. split; [exact in_search_chars_A|].
    left. reflexivity. }
  exists st. split; [exact Hmain|]. split; [exact Hin|].
  exact (refinement_single_level (bs4 := no_table) saturated_but_failing st "AA" Hmain Hin).
Defined.

(** ** What a search term returns *)

Section Results.

Context `{bs4 : BeautifulSoup}.

Lemma blocks_return (s : session) (search_term : string) (blocks : list Z) :
  Forall2 (fun block symbols => process_block s search_term block = Ret symbols)
          blocks (List.map (block_symbols s search_term) blocks).
Proof.
  induction blocks as [|b blocks IH]; simpl; constructor; [|exact IH].
  apply process_block_ret.
Qed.

Lemma process_search_term_probed (s : session) (search_term : string) (count : Z) :
  probe_count s search_term = Ret count ->
  process_search_term s search_term
  = Ret (⋃ (List.map (block_symbols s search_term) (planned_offsets s search_term count))).
Proof.
  intros Hprobe. rewrite process_search_term_ret, term_symbols_eq. now rewrite Hprobe.
Qed.

Lemma process_search_term_not_probed (s : session) (search_term : string) (e : exn) :
  probe_count s search_term = Raise e ->
  process_search_term s search_term = Ret ∅.
Proof.
  intros Hprobe. rewrite process_search_term_ret, term_symbols_eq. now rewrite Hprobe.
Qed.

Lemma block_symbols_ext (s s' : session) (search_term : string) (blocks : list Z) :
  (forall block k, s' (block_url search_term block) k = s (block_url search_term block) k) ->
  List.map (block_symbols s' search_term) blocks
  = List.map (block_symbols s search_term) blocks.
Proof.
  intros Hext. apply map_ext. intros b. unfold block_symbols.
  now rewrite (process_block_ext s s').
Qed.

(** C10. The probe gives the count and nothing else. When the probe gives
    a count, [process_search_term] returns the union of what
    [process_block] returns for the planned blocks; when the probe raises,
    it returns the empty set. So two servers that agree on the block pages
    and on the count give the same result, whatever rows their probe pages
    show. In [main], a refined prefix of two characters adds the results of
    its 36 extensions to its own. *)
Theorem probe_only_counts (s : session) (search_term : string) :
  (forall count,
     probe_count s search_term = Ret count ->
     exists results,
       Forall2 (fun block symbols => process_block s search_term block = Ret symbols)
               (planned_offsets s search_term count) results
       /\ process_search_term s search_term = Ret (⋃ results))
  /\ (forall e,
        probe_count s search_term = Raise e ->
        process_search_term s search_term = Ret ∅)
  /\ (forall s' : session,
        (forall block k,
           s' (block_url search_term block) k = s (block_url search_term block) k) ->
        probe_count s' search_term = probe_count s search_term ->
        process_search_term s' search_term = process_search_term s search_term)
  /\ (forall c1 c2 st,
        exists own st',
          process_search_term s (c1 +:+ c2) = Ret own
          /\ main_c2 s c1 c2 st = Ret st'
          /\ all_symbols st'
             = all_symbols st
               ∪ (own ∪ (if 9000 <=? Z.of_nat (size own)
                         then ⋃ (List.map (fun c3 => term_symbols s (c1 +:+ c2 +:+ c3))
                                          search_chars)
                         else ∅))).
Proof.
  split; [|split; [|split]].
  - intros count Hprobe. eexists. split; [apply blocks_return|].
    now apply process_search_term_probed.
  - apply process_search_term_not_probed.
  - intros s' Hext Hprobe.
    rewrite !process_search_term_ret, !term_symbols_eq, Hprobe.
    destruct (probe_count s search_term) as [count|e]; [|reflexivity].
    rewrite !planned_offsets_range. now rewrite (block_symbols_ext s s').
  - intros c1 c2 st. exists (term_symbols s (c1 +:+ c2)), (after_prefix s c1 c2 st).
    split; [apply process_search_term_ret|]. split; [apply main_c2_ret|].
    unfold after_prefix, prefix_symbols, saturated, extensions. cbn [all_symbols].
    fold (term_symbols s (c1 +:+ c2)). now rewrite map_map.
Qed.


End Results.

(** The URL of a block is never the URL of the probe. *)
Lemma block_url_not_probe (search_term : string) (block : Z) :
  block_url search_term block <> probe_url search_term.
Proof.
  unfold block_url, probe_url. intros Heq.
  apply (inj (String.app _)) in Heq. apply (inj (String.app _)) in Heq.
  simpl in Heq. injection Heq as Heq.
  destruct (str block) as [|c1 [|c2 [|c3 [|c4 [|c5 [|c6 [|c7 r]]]]]]];
    simpl in Heq; discriminate Heq.
Qed.

Lemma with_probe_page_blocks (s : session) (search_term page : string) (block k : Z) :
  with_probe_page s search_term page (block_url search_term block) k
  = s (block_url search_term block) k.
Proof.
  unfold with_probe_page.
  destruct (String.eqb_spec (block_url search_term block) (probe_url search_term)) as [E|_];
    [|reflexivity].
  now apply block_url_not_probe in E.
Qed.


(** Two servers that differ in the page of the probe only, one of them
    showing a row on it, return the same symbols for CC. *)
Lemma probe_only_counts_witness :
  (forall block k,
     with_probe_page one_bad_block "CC" ("Stocks (550)" +:+ String "010" "PROBE")
       (block_url "CC" block) k
     = one_bad_block (block_url "CC" block) k)
  /\ probe_count (with_probe_page one_bad_block "CC"
                    ("Stocks (550)" +:+ String "010" "PROBE")) "CC"
     = probe_count one_bad_block "CC"
  /\ process_search_term (bs4 := line_table)
       (with_probe_page one_bad_block "CC" ("Stocks (550)" +:+ String "010" "PROBE")) "CC"
     = process_search_term (bs4 := line_table) one_bad_block "CC".
Proof.
  assert (forall block k,
     with_probe_page one_bad_block "CC" ("Stocks (550)" +:+ String "010" "PROBE")
       (block_url "CC" block) k
     = one_bad_block (block_url "CC" block) k) as Hblocks
    by (intros block k; apply with_probe_page_blocks).
  assert (probe_count (with_probe_page one_bad_block "CC"
                         ("Stocks (550)" +:+ String "010" "PROBE")) "CC"
          = probe_count one_bad_block "CC") as Hprobe by reflexivity.
  destruct (probe_only_counts (bs4 := line_table) one_bad_block "CC") as (_ & _ & Hsame & _).
  split; [exact Hblocks|]. split; [exact Hprobe|].
  exact (Hsame _ Hblocks Hprobe).
Defined.

(** ** The global set *)

Section Aggregation.

Context `{bs4 : BeautifulSoup}.

Lemma after_prefix_totals (s : session) (c1 c2 : string) (st : crawl) :
  totals_ordered st -> totals_ordered (after_prefix s c1 c2 st).
Proof.
  intros [Hsorted Hbound]. unfold totals_ordered, after_prefix. cbn [totals all_symbols].
  assert (Z.of_nat (size (all_symbols st))
          <= Z.of_nat (size (all_symbols st ∪ prefix_symbols s c1 c2))) as Hgrow.
  { apply Nat2Z.inj_le. apply subseteq_size, union_subseteq_l. }
  split.
  - apply StronglySorted_app_2; [|exact Hsorted|repeat constructor].
    intros n m Hn Hm. apply list_elem_of_singleton in Hm as ->.
    rewrite Forall_forall in Hbound. specialize (Hbound n Hn). simpl in Hbound. lia.
  - apply Forall_app. split.
    + eapply Forall_impl; [exact Hbound|]. simpl. intros n Hn. lia.
    + repeat constructor. lia.
Qed.

Lemma rounds_totals (s : session) (ps : list (string * string)) :
  forall st,
    totals_ordered st ->
    totals_ordered (fold_left (fun st p => after_prefix s p.1 p.2 st) ps st).
Proof.
  induction ps as [|p ps IH]; intros st Hst; simpl; [exact Hst|].
  apply IH. now apply after_prefix_totals.
Qed.

Lemma rounds_totals_length (s : session) (ps : list (string * string)) :
  forall st,
    List.length (totals (fold_left (fun st p => after_prefix s p.1 p.2 st) ps st))
    = (List.length (totals st) + List.length ps)%nat.
Proof.
  induction ps as [|p ps IH]; intros st; simpl; [lia|].
  rewrite IH. simpl. rewrite length_app. simpl. lia.
Qed.

(** C9. Merging is set union: merging a set into itself changes nothing,
    the order in which results are merged does not matter, a set has each
    element once, and the global set only grows: every round of [main]
    keeps what was there, and the totals logged over the 1296 rounds never
    go down. *)
Theorem merge_is_union (s : session) :
  (forall S, update S S = S)
  /\ (forall G A B, update (update G A) B = update (update G B) A)
  /\ (forall G l1 l2, l1 ≡ₚ l2 -> fold_left update l1 G = fold_left update l2 G)
  /\ (forall G A x, x ∈ update G A <-> x ∈ G \/ x ∈ A)
  /\ (forall G A,
        NoDup (elements (update G A))
        /\ G ⊆ update G A
        /\ (size G <= size (update G A))%nat)
  /\ (forall c1 c2 st,
        exists st', main_c2 s c1 c2 st = Ret st' /\ all_symbols st ⊆ all_symbols st')
  /\ exists st,
       main s = Ret st
       /\ all_symbols st = ⋃ (List.map (fun p => prefix_symbols s p.1 p.2) prefixes)
       /\ NoDup (elements (all_symbols st))
       /\ StronglySorted Z.le (totals st)
       /\ List.length (totals st) = 1296%nat.
Proof.
  repeat apply conj.
  - intros S. unfold update. apply (idemp_L (∪)).
  - intros G A B. unfold update.
    now rewrite <- !(assoc_L (∪)), (comm_L (∪) A B).
  - intros G l1 l2 Hperm. rewrite !fold_left_update. now rewrite Hperm.
  - intros G A x. unfold update. apply elem_of_union.
  - intros G A. unfold update. split; [apply NoDup_elements|].
    split; [apply union_subseteq_l|]. apply subseteq_size, union_subseteq_l.
  - intros c1 c2 st. exists (after_prefix s c1 c2 st). split; [apply main_c2_ret|].
    unfold after_prefix. cbn [all_symbols]. apply union_subseteq_l.
  - eexists. split; [apply main_ret|]. split; [|split; [|split]].
    + rewrite rounds_all_symbols. cbn [all_symbols crawl_start].
      apply (left_id_L ∅ (∪)).
    + apply NoDup_elements.
    + apply rounds_totals. split; constructor.
    + rewrite rounds_totals_length. reflexivity.
Qed.

End Aggregation.

Lemma merge_is_union_witness :
  ["CC0"; "CC1"] ≡ₚ ["CC1"; "CC0"]
  /\ fold_left update [{["CC0"]}; {["CC1"]}] ∅ = fold_left update [{["CC1"]}; {["CC0"]}] ∅
  /\ update (term_symbols (bs4 := line_table) one_bad_block "CC")
            (term_symbols (bs4 := line_table) one_bad_block "CC")
     = term_symbols (bs4 := line_table) one_bad_block "CC".
Proof.
  destruct (merge_is_union (bs4 := line_table) one_bad_block)
    as (Hidem & _ & Hperm & _).
  split; [apply perm_swap|]. split; [|apply Hidem].
  apply Hperm. apply perm_swap.
Defined.

(** * Further properties *)

(** ** [fetch_url] for any number of retries *)

Lemma attempts_Request (url : string) (tr : list event) :
  attempts (Request url :: tr) = 1 + attempts tr.
Proof. unfold attempts. simpl. lia. Qed.

Lemma attempts_Warning (n : Z) (e : exn) (tr : list event) :
  attempts (Warning n e :: tr) = attempts tr.
Proof. reflexivity. Qed.

Lemma attempts_Sleep (d : Z) (tr : list event) :
  attempts (Sleep d :: tr) = attempts tr.
Proof. reflexivity. Qed.

Lemma attempts_nonneg (tr : list event) : 0 <= attempts tr.
Proof. unfold attempts. lia. Qed.

Lemma range_unit (stop : Z) :
  range 0 stop 1 = List.map Z.of_nat (seq 0 (Z.to_nat stop)).
Proof.
  unfold range. simpl. rewrite Z.div_1_r.
  replace (stop - 0 + 1 - 1) with stop by lia.
  apply map_ext. intros i. lia.
Qed.

(** The loop over the attempts from [a] on, [n] of them, the last one
    being attempt [retries - 1]. *)
Lemma fetch_url_for_spec (s : session) (url : string) (retries : Z) (n : nat) :
  forall a : nat,
    Z.of_nat (a + n) = retries -> (1 <= n)%nat ->
    let tr := (fetch_url_for s url retries (List.map Z.of_nat (seq a n))).1 in
    let r := (fetch_url_for s url retries (List.map Z.of_nat (seq a n))).2 in
    1 <= attempts tr <= Z.of_nat n
    /\ delays tr = repeat 1 (Z.to_nat (attempts tr - 1))
    /\ (forall body,
          r = Ret (Some body) ->
          s url (Z.of_nat a + attempts tr - 1) = Ret body)
    /\ (forall j, Z.of_nat a <= j < Z.of_nat a + attempts tr - 1 ->
                  exists e, s url j = Raise e)
    /\ (forall e,
          r = Raise e ->
          attempts tr = Z.of_nat n /\ s url (retries - 1) = Raise e)
    /\ r <> Ret None.
Proof.
  induction n as [|n IH]; intros a Hsum Hn; [lia|].
  cbn [seq List.map fetch_url_for].
  destruct (s url (Z.of_nat a)) as [body|e] eqn:Ha.
  - cbn [fst snd]. rewrite attempts_Request. change (attempts []) with 0.
    split; [lia|]. split; [reflexivity|]. split; [|split; [|split]].
    + intros body' [= <-]. now replace (Z.of_nat a + (1 + 0) - 1) with (Z.of_nat a) by lia.
    + intros j Hj. exfalso. lia.
    + intros e' [=].
    + intros [=].
  - destruct (Z.eqb_spec (Z.of_nat a) (retries - 1)) as [Hlast|Hmore].
    + assert (n = 0%nat) as -> by lia.
      cbn [fst snd]. rewrite attempts_Request, attempts_Warning.
      change (attempts []) with 0.
      split; [lia|]. split; [reflexivity|]. split; [|split; [|split]].
      * intros body' [=].
      * intros j Hj. exfalso. lia.
      * intros e' [= <-]. split; [lia|]. now rewrite <- Hlast.
      * intros [=].
    + specialize (IH (S a) ltac:(lia) ltac:(lia)).
      destruct (fetch_url_for s url retries (List.map Z.of_nat (seq (S a) n)))
        as [tr r] eqn:Hrest.
      cbn [fst snd] in IH |- *.
      destruct IH as (Hatt & Hdel & Hok & Hfail & Herr & Hnone).
      rewrite attempts_Request, attempts_Warning, attempts_Sleep.
      split; [lia|]. split; [|split; [|split; [|split]]].
      * change (delays (Request url :: Warning (Z.of_nat a + 1) e :: Sleep 1 :: tr))
          with (1 :: delays tr).
        rewrite Hdel.
        replace (Z.to_nat (1 + attempts tr - 1)) with (S (Z.to_nat (attempts tr - 1))) by lia.
        reflexivity.
      * intros body Hr. specialize (Hok body Hr).
        now replace (Z.of_nat a + (1 + attempts tr) - 1)
          with (Z.of_nat (S a) + attempts tr - 1) by lia.
      * intros j Hj. destruct (Z.eq_dec j (Z.of_nat a)) as [->|Hne]; [eauto|].
        apply Hfail. lia.
      * intros e' Hr. destruct (Herr e' Hr) as [-> Hlast]. split; [lia|exact Hlast].
      * exact Hnone.
Qed.

(** X1. For any number of retries of at least 1, [fetch_url] sends
    between 1 and [retries] requests, sleeps 1 second between two
    consecutive requests and at no other time, and never returns [None]:
    it returns the body of the first attempt that succeeds, all earlier
    attempts having failed, or raises the error of attempt [retries] after
    all of them failed. *)
Theorem fetch_url_any_retries (s : session) (url : string) (retries : Z) :
  1 <= retries ->
  let tr := (fetch_url s url retries).1 in
  let r := (fetch_url s url retries).2 in
  1 <= attempts tr <= retries
  /\ delays tr = repeat 1 (Z.to_nat (attempts tr - 1))
  /\ (forall body, r = Ret (Some body) -> s url (attempts tr - 1) = Ret body)
  /\ (forall j, 0 <= j < attempts tr - 1 -> exists e, s url j = Raise e)
  /\ (forall e, r = Raise e -> attempts tr = retries /\ s url (retries - 1) = Raise e)
  /\ r <> Ret None.
Proof.
  intros Hretries. unfold fetch_url. rewrite range_unit.
  pose proof (fetch_url_for_spec s url retries (Z.to_nat retries) 0%nat
                ltac:(lia) ltac:(lia)) as H.
  cbv zeta in H |- *. rewrite Z2Nat.id in H by lia.
  destruct H as (Hatt & Hdel & Hok & Hfail & Herr & Hnone).
  split; [lia|]. split; [exact Hdel|]. split; [exact Hok|].
  split; [exact Hfail|]. split; [exact Herr|exact Hnone].
Qed.

(** With 5 retries allowed and a server that answers the third request,
    3 requests are sent and 2 delays slept. *)
Lemma fetch_url_any_retries_witness :
  1 <= 5
  /\ 1 <= attempts (fetch_url third_time_lucky "u" 5).1 <= 5
  /\ delays (fetch_url third_time_lucky "u" 5).1
     = repeat 1 (Z.to_nat (attempts (fetch_url third_time_lucky "u" 5).1 - 1))
  /\ attempts (fetch_url third_time_lucky "u" 5).1 = 3
  /\ (fetch_url third_time_lucky "u" 5).2 = Ret (Some "Stocks (42)").
Proof.
  assert (1 <= 5) as H by lia.
  destruct (fetch_url_any_retries third_time_lucky "u" 5 H) as (Hatt & Hdel & _).
  split; [exact H|]. split; [exact Hatt|]. split; [exact Hdel|].
  split; reflexivity.
Defined.

(** X2. With no retries allowed ([retries <= 0]) the loop body never
    runs: [fetch_url] sends no request, does not sleep and returns
    [None]. *)
Theorem fetch_url_no_attempt (s : session) (url : string) (retries : Z) :
  retries <= 0 -> fetch_url s url retries = ([], Ret None).
Proof.
  intros Hretries. unfold fetch_url. rewrite range_unit.
  replace (Z.to_nat retries) with 0%nat by lia. reflexivity.
Qed.

Lemma fetch_url_no_attempt_witness :
  -1 <= 0 /\ fetch_url third_time_lucky "u" (-1) = ([], Ret None).
Proof.
  split; [lia|]. apply (fetch_url_no_attempt third_time_lucky "u" (-1)). lia.
Defined.

(** ** [extract_count] on short bodies and on printed counts *)

Lemma substring_length_le (s : string) :
  forall n m : nat, (String.length (String.substring n m s) + n <= String.length s + 0
                     \/ String.substring n m s = EmptyString)%nat.
Proof.
  induction s as [|c s IH]; intros [|n] [|m]; simpl; auto.
  - destruct (IH 0%nat m) as [H|H]; [left; lia|left; rewrite H; simpl; lia].
  - destruct (IH n 0%nat) as [H|H]; [left; lia|right; exact H].
  - destruct (IH n (S m)) as [H|H]; [left; lia|right; exact H].
Qed.

Lemma substring_beyond (s : string) :
  forall n m : nat, (String.length s <= n)%nat -> String.substring n m s = EmptyString.
Proof.
  induction s as [|c s IH]; intros [|n] m Hn; simpl in *; try reflexivity; try lia.
  - now destruct m.
  - apply IH. lia.
Qed.

(** The marker has 8 characters: it is not found in a shorter body. *)
Lemma find_marker_short (body : string) :
  (String.length body < 8)%nat -> find "Stocks (" body 0 = -1.
Proof.
  intros Hlen. unfold find.
  destruct (String.index (Z.to_nat 0) "Stocks (" body) as [m|] eqn:E; [|reflexivity].
  apply index_correct1 in E.
  destruct (substring_length_le body m (String.length "Stocks (")) as [H|H];
    rewrite E in H; simpl in H; [lia|discriminate].
Qed.

(** X3. A body of fewer than 8 characters, the empty body among them,
    has no room for the marker: [extract_count] returns 0. *)
Theorem extract_count_short_body (body search_term : string) :
  (String.length body < 8)%nat -> extract_count body search_term = Ret 0.
Proof.
  intros Hlen. rewrite extract_count_unfold. unfold count_text.
  rewrite (find_marker_short body Hlen).
  unfold slice. change (Z.to_nat (-1 + 8)) with 7%nat.
  rewrite substring_beyond by lia. reflexivity.
Qed.

Lemma extract_count_short_body_witness :
  (String.length "Stocks(" < 8)%nat /\ extract_count "Stocks(" "AA" = Ret 0.
Proof.
  assert (String.length "Stocks(" < 8)%nat as H by (simpl; lia).
  split; [exact H|]. exact (extract_count_short_body "Stocks(" "AA" H).
Defined.

(** ** [int] reads what [str] prints *)

Lemma digit_not_space (c : ascii) : digit_value c <> None -> isspace c = false.
Proof.
  unfold digit_value, isspace.
  destruct ((48 <=? Z.of_nat (nat_of_ascii c)) && (Z.of_nat (nat_of_ascii c) <=? 57)) eqn:E;
    [|congruence].
  intros _. apply andb_prop in E as [H1 H2].
  apply Z.leb_le in H1. apply Z.leb_le in H2.
  repeat match goal with
  | |- context [?a <=? ?b] => destruct (Z.leb_spec a b); try lia
  | |- context [?a =? ?b] => destruct (Z.eqb_spec a b); try lia
  end; reflexivity.
Qed.

Lemma rstrip_no_space (s : string) :
  Forall (fun c => isspace c = false) (list_ascii_of_string s) -> rstrip s = s.
Proof.
  induction s as [|c s IH]; simpl; [reflexivity|].
  intros H. apply Forall_cons in H as [Hc Hs]. rewrite (IH Hs), Hc. now destruct s.
Qed.

Lemma strip_digits (s : string) : is_digits s -> strip s = s.
Proof.
  intros H. unfold strip.
  assert (Forall (fun c => isspace c = false) (list_ascii_of_string s)) as Hs.
  { eapply Forall_impl; [exact H|]. apply digit_not_space. }
  replace (lstrip s) with s; [now apply rstrip_no_space|].
  destruct s as [|c s]; [reflexivity|]. simpl.
  apply Forall_cons in Hs as [-> _]. reflexivity.
Qed.

Lemma int_digits_string (s : string) (v k : Z) :
  is_digits s ->
  int_digits s 0 0 false = Some (v, k) ->
  int s = if int_max_str_digits <? k then Raise ValueError else Ret v.
Proof.
  intros Hs Hv. unfold int. rewrite (strip_digits s Hs).
  assert (match s with
          | String "-" r => (-1, r) | String "+" r => (1, r) | _ => (1, s)
          end = (1, s)) as ->.
  { destruct s as [|c r]; [reflexivity|].
    apply Forall_cons in Hs as [Hc _].
    destruct c as [[] [] [] [] [] [] [] []]; try reflexivity; now elim Hc. }
  rewrite Hv. destruct (int_max_str_digits <? k); [reflexivity|].
  now rewrite Z.mul_1_l.
Qed.

Lemma digit_value_pretty (d : N) :
  (d < 10)%N -> digit_value (pretty_N_char d) = Some (Z.of_N d).
Proof.
  intros Hd.
  assert (d = 0 \/ d = 1 \/ d = 2 \/ d = 3 \/ d = 4 \/ d = 5 \/ d = 6 \/ d = 7
          \/ d = 8 \/ d = 9)%N as H by lia.
  repeat (destruct H as [-> | H]; [reflexivity|]). now subst.
Qed.

(** The digits that [pretty_N_go] puts before [s]: their number [k], and
    what [int_digits] makes of them. *)
Lemma int_digits_pretty_N_go (x : N) :
  exists k,
    (x = 0%N -> k = 0)
    /\ ((0 < x)%N -> 1 <= k /\ 10 ^ (k - 1) <= Z.of_N x)
    /\ (forall s, is_digits s -> is_digits (pretty_N_go x s))
    /\ forall s acc count after,
         int_digits (pretty_N_go x s) acc count after
         = int_digits s (acc * 10 ^ k + Z.of_N x) (count + k)
             (if decide (x = 0%N) then after else true).
Proof.
  induction (N.lt_wf_0 x) as [x _ IH].
  destruct (decide (x = 0%N)) as [->|Hx].
  - exists 0. split; [reflexivity|]. split; [lia|]. split.
    + intros s Hs. now rewrite pretty_N_go_0.
    + intros s acc count after. rewrite pretty_N_go_0.
      f_equal; lia.
  - destruct (IH (x `div` 10)%N) as (k & Hk0 & Hk & Hdig & Hval).
    { apply N.div_lt; lia. }
    assert (0 <= k) as Hknn.
    { destruct (decide (x `div` 10 = 0)%N) as [E|E]; [rewrite (Hk0 E); lia|].
      destruct Hk as [H1 H2]; [now apply N.neq_0_lt_0|lia]. }
    exists (k + 1). split; [lia|]. split; [|split].
    + intros _. split; [lia|]. replace (k + 1 - 1) with k by lia.
      destruct (decide (x `div` 10 = 0)%N) as [E|E].
      * rewrite (Hk0 E). simpl. lia.
      * destruct Hk as [Hk1 Hk2]; [now apply N.neq_0_lt_0|].
        replace k with (k - 1 + 1) by lia. rewrite Z.pow_add_r by lia.
        change (10 ^ 1) with 10.
        pose proof (N.div_mod x 10 ltac:(lia)) as Hdm.
        assert (Z.of_N x = 10 * Z.of_N (x `div` 10) + Z.of_N (x `mod` 10)) as -> by lia.
        pose proof (N2Z.is_nonneg (x `mod` 10)) as Hmod.
        clear - Hk2 Hmod. lia.
    + intros s Hs. rewrite pretty_N_go_step by lia. apply Hdig.
      apply Forall_cons. split; [|exact Hs].
      rewrite digit_value_pretty; [discriminate|]. apply N.mod_lt. lia.
    + intros s acc count after. rewrite pretty_N_go_step by lia.
      rewrite Hval. cbn [int_digits].
      rewrite digit_value_pretty by (apply N.mod_lt; lia).
      f_equal; [|lia].
      rewrite Z.pow_add_r by lia. change (10 ^ 1) with 10.
      pose proof (N.div_mod x 10 ltac:(lia)) as Hdm.
      assert (Z.of_N x = 10 * Z.of_N (x `div` 10) + Z.of_N (x `mod` 10)) as -> by lia.
      clear. lia.
Qed.

(** [int(str(n)) == n] for a non-negative [n] within the limit on the
    number of digits. *)
Lemma int_str (n : Z) : 0 <= n < 10 ^ int_max_str_digits -> int (str n) = Ret n.
Proof.
  intros Hn. destruct n as [|p|p]; [reflexivity| |lia].
  unfold str, pretty, pretty_Z, pretty, pretty_positive, pretty, pretty_N.
  destruct (decide (N.pos p = 0%N)) as [E|_]; [discriminate E|].
  destruct (int_digits_pretty_N_go (N.pos p)) as (k & _ & Hk & Hdig & Hval).
  destruct Hk as [Hk1 Hk2]; [lia|].
  rewrite (int_digits_string _ (Z.pos p) k).
  - destruct (Z.ltb_spec int_max_str_digits k) as [Hbig|_]; [|reflexivity].
    exfalso.
    assert (10 ^ int_max_str_digits <= 10 ^ (k - 1)); [|simpl in *; lia].
    apply Z.pow_le_mono_r; lia.
  - apply Hdig. constructor.
  - rewrite Hval. simpl. destruct (decide (N.pos p = 0%N)); [discriminate|].
    reflexivity.
Qed.

(** ** Strings that are built by concatenation *)

Lemma string_app_cons (c : ascii) (s1 s2 : string) :
  String c s1 +:+ s2 = String c (s1 +:+ s2).
Proof. reflexivity. Qed.

Lemma string_app_length (s1 s2 : string) :
  String.length (s1 +:+ s2) = (String.length s1 + String.length s2)%nat.
Proof.
  induction s1 as [|c s1 IH]; [reflexivity|].
  rewrite string_app_cons. simpl. now rewrite IH.
Qed.

Lemma string_app_assoc (s1 s2 s3 : string) :
  (s1 +:+ s2) +:+ s3 = s1 +:+ (s2 +:+ s3).
Proof.
  induction s1 as [|c s1 IH]; [reflexivity|].
  rewrite !string_app_cons. now rewrite IH.
Qed.

Lemma index_skip (p sub s : string) (n : nat) :
  String.index (String.length p + n) sub (p +:+ s)
  = option_map (fun m => (String.length p + m)%nat) (String.index n sub s).
Proof.
  induction p as [|c p IH].
  - change ("" +:+ s) with s. simpl. now destruct (String.index n sub s).
  - rewrite string_app_cons. simpl. rewrite IH. now destruct (String.index n sub s).
Qed.

Lemma digit_not_paren (c : ascii) : digit_value c <> None -> c <> ")"%char.
Proof. intros H ->. now apply H. Qed.

Lemma index_paren_after_digits (ds rest : string) :
  is_digits ds ->
  String.index 0 ")" (ds +:+ String ")" rest) = Some (String.length ds).
Proof.
  induction ds as [|c ds IH]; intros Hds.
  - change ("" +:+ String ")" rest) with (String ")" rest).
    cbn [String.index String.prefix String.length].
    destruct (ascii_dec ")" ")") as [_|Hne]; [now destruct rest|now elim Hne].
  - apply Forall_cons in Hds as [Hc Hds].
    rewrite string_app_cons. cbn [String.index String.prefix].
    destruct (ascii_dec ")" c) as [<-|_]; [now elim (digit_not_paren ")" Hc)|].
    now rewrite (IH Hds).
Qed.

Lemma substring_skip (p s : string) (m : nat) :
  String.substring (String.length p) m (p +:+ s) = String.substring 0 m s.
Proof.
  induction p as [|c p IH]; [reflexivity|]. rewrite string_app_cons. exact IH.
Qed.

Lemma substring_prefix (d s : string) :
  String.substring 0 (String.length d) (d +:+ s) = d.
Proof.
  induction d as [|c d IH]; [now destruct s|].
  rewrite string_app_cons. simpl. now rewrite IH.
Qed.

(** [str] prints a non-negative number with digits only. *)
Lemma str_digits (n : Z) : 0 <= n -> is_digits (str n).
Proof.
  intros Hn. destruct n as [|p|p]; [repeat constructor; discriminate| |lia].
  unfold str, pretty, pretty_Z, pretty, pretty_positive, pretty, pretty_N.
  destruct (decide (N.pos p = 0%N)) as [E|_]; [discriminate E|].
  destruct (int_digits_pretty_N_go (N.pos p)) as (k & _ & _ & Hdig & _).
  apply Hdig. constructor.
Qed.

(** X4. When the first occurrence of the marker in the body is followed
    by the decimal digits of a count [n] and a closing parenthesis,
    [extract_count] returns [n], whatever comes before and after. *)
Theorem extract_count_printed_count (pre post search_term : string) (n : Z) :
  find "Stocks (" (pre +:+ "Stocks (" +:+ str n +:+ ")" +:+ post) 0 = len pre ->
  0 <= n < 10 ^ int_max_str_digits ->
  extract_count (pre +:+ "Stocks (" +:+ str n +:+ ")" +:+ post) search_term = Ret n.
Proof.
  intros Hfirst Hn. rewrite extract_count_unfold. unfold count_text.
  rewrite Hfirst.
  assert (pre +:+ "Stocks (" +:+ str n +:+ ")" +:+ post
          = (pre +:+ "Stocks (") +:+ (str n +:+ String ")" post)) as Hbody
    by now rewrite string_app_assoc.
  assert (String.length (pre +:+ "Stocks (") = Z.to_nat (len pre + 8)) as Hstart.
  { rewrite string_app_length. unfold len. simpl. lia. }
  assert (find ")" (pre +:+ "Stocks (" +:+ str n +:+ ")" +:+ post) (len pre + 8)
          = len pre + 8 + len (str n)) as ->.
  { unfold find. rewrite Hbody, <- Hstart.
    rewrite <- (Nat.add_0_r (String.length (pre +:+ "Stocks ("))) at 1.
    rewrite index_skip, index_paren_after_digits by (apply str_digits; lia).
    simpl. rewrite string_app_length. unfold len. simpl. lia. }
  assert (slice (pre +:+ "Stocks (" +:+ str n +:+ ")" +:+ post)
                (len pre + 8) (len pre + 8 + len (str n)) = str n) as ->.
  { unfold slice.
    destruct (Z.ltb_spec (len pre + 8 + len (str n)) 0) as [Hneg|_]; [unfold len in Hneg; lia|].
    rewrite Z.min_l.
    - replace (len pre + 8 + len (str n) - (len pre + 8)) with (len (str n)) by lia.
      rewrite Hbody, <- Hstart, substring_skip. unfold len. rewrite Nat2Z.id.
      apply substring_prefix.
    - rewrite Hbody. unfold len. rewrite !string_app_length. simpl. lia. }
  now rewrite int_str.
Qed.

Lemma extract_count_printed_count_witness :
  find "Stocks (" ("<h1>" +:+ "Stocks (" +:+ str 15000 +:+ ")" +:+ "</h1>") 0 = len "<h1>"
  /\ 0 <= 15000 < 10 ^ int_max_str_digits
  /\ extract_count ("<h1>" +:+ "Stocks (" +:+ str 15000 +:+ ")" +:+ "</h1>") "BB"
     = Ret 15000.
Proof.
  assert (find "Stocks (" ("<h1>" +:+ "Stocks (" +:+ str 15000 +:+ ")" +:+ "</h1>") 0
          = len "<h1>") as Hfirst by reflexivity.
  assert (0 <= 15000 < 10 ^ int_max_str_digits) as Hn.
  { split; [lia|]. apply Z.lt_le_trans with (10 ^ 5); [reflexivity|].
    apply Z.pow_le_mono_r; unfold int_max_str_digits; lia. }
  split; [exact Hfirst|]. split; [exact Hn|].
  exact (extract_count_printed_count "<h1>" "</h1>" "BB" 15000 Hfirst Hn).
Defined.

(** ** The symbols of a block *)

Lemma rstrip_cons_no_space (c : ascii) (s : string) :
  isspace c = false -> rstrip (String c s) = String c (rstrip s).
Proof. intros Hc. simpl. rewrite Hc. now destruct (rstrip s). Qed.

Lemma rstrip_idemp (s : string) : rstrip (rstrip s) = rstrip s.
Proof.
  induction s as [|c s IH]; [reflexivity|].
  simpl. destruct (rstrip s) as [|d q] eqn:E.
  - destruct (isspace c) eqn:Hc; [reflexivity|]. simpl. now rewrite Hc.
  - change (rstrip (String c (String d q))) with
      (match rstrip (String d q) with
       | EmptyString => if isspace c then EmptyString else String c EmptyString
       | r => String c r
       end).
    now rewrite IH.
Qed.

Lemma lstrip_head (s : string) (c : ascii) (r : string) :
  lstrip s = String c r -> isspace c = false.
Proof.
  induction s as [|a s IH]; simpl; [discriminate|].
  destruct (isspace a) eqn:Ha; [exact IH|]. now intros [= <- _].
Qed.

(** [strip] removes nothing from a string that it has stripped. *)
Lemma strip_idemp (s : string) : strip (strip s) = strip s.
Proof.
  unfold strip. destruct (lstrip s) as [|c r] eqn:E; [reflexivity|].
  pose proof (lstrip_head s c r E) as Hc.
  rewrite (rstrip_cons_no_space c r Hc). simpl lstrip. rewrite Hc.
  rewrite (rstrip_cons_no_space c _ Hc). now rewrite rstrip_idemp.
Qed.

Lemma size_add_le (symbols : gset string) (x : string) :
  (size (add symbols x) <= size symbols + 1)%nat.
Proof.
  unfold add. rewrite size_union_alt.
  assert (size (({[x]} : gset string) ∖ symbols) <= size ({[x]} : gset string))%nat as H
    by (apply subseteq_size, subseteq_difference_l; reflexivity).
  rewrite size_singleton in H. lia.
Qed.

Section Block.

Context `{bs4 : BeautifulSoup}.

Lemma process_row_elem (symbols : gset string) (row : tag) (x : string) :
  x ∈ process_row symbols row <-> x ∈ symbols \/ row_symbol row x.
Proof.
  unfold process_row, row_symbol.
  destruct (find_symbol_td row) as [cell|].
  - destruct (String.eqb_spec (strip (text cell)) "") as [E|E].
    + split; [auto|]. intros [H|(cell' & [= <-] & -> & Hne)]; [exact H|]. now elim Hne.
    + unfold add. rewrite elem_of_union, elem_of_singleton. split.
      * intros [H| ->]; [auto|]. right. eauto.
      * intros [H|(cell' & [= <-] & -> & _)]; auto.
  - split; [auto|]. intros [H|(cell' & [=] & _)]. exact H.
Qed.

Lemma process_rows_elem (rows : list tag) (symbols : gset string) (x : string) :
  x ∈ fold_left process_row rows symbols
  <-> x ∈ symbols \/ exists row, In row rows /\ row_symbol row x.
Proof.
  revert symbols. induction rows as [|row rows IH]; intros symbols; simpl.
  - split; [auto|]. intros [H|(row & [] & _)]. exact H.
  - rewrite IH, process_row_elem. split.
    + intros [[H|H]|(row' & Hin & H)]; eauto.
    + intros [H|(row' & [<-|Hin] & H)]; eauto.
Qed.

Lemma process_rows_size (rows : list tag) (symbols : gset string) :
  (size (fold_left process_row rows symbols) <= size symbols + List.length rows)%nat.
Proof.
  revert symbols. induction rows as [|row rows IH]; intros symbols; simpl; [lia|].
  etransitivity; [apply IH|].
  assert (size (process_row symbols row) <= size symbols + 1)%nat; [|lia].
  unfold process_row. destruct (find_symbol_td row); [|lia].
  destruct (String.eqb _ ""); [lia|apply size_add_le].
Qed.

Lemma block_symbols_table (s : session) (search_term : string) (block : Z) (table : tag) :
  block_table s search_term block table ->
  block_symbols s search_term block = fold_left process_row (find_all_tr table) ∅.
Proof.
  intros (body & soup & Hbody & Hsoup & Htable).
  unfold block_symbols, process_block, process_block_try.
  now rewrite Hbody; simpl; rewrite Hsoup; simpl; rewrite Htable.
Qed.

Lemma block_symbols_no_table (s : session) (search_term : string) (block : Z) :
  (forall table, ~ block_table s search_term block table) ->
  block_symbols s search_term block = ∅.
Proof.
  intros Hnone. unfold block_symbols, process_block, process_block_try.
  destruct (snd (fetch_url s (block_url search_term block) default_retries))
    as [[body|]|e] eqn:Hbody; simpl; try reflexivity.
  destruct (html_parser body) as [soup|e] eqn:Hsoup; simpl; [|reflexivity].
  destruct (find_table soup) as [table|] eqn:Htable; [|reflexivity].
  elim (Hnone table). exists body, soup. auto.
Qed.

(** A block either shows a table, whose rows give its symbols, or
    contributes nothing. *)
Lemma block_symbols_cases (s : session) (search_term : string) (block : Z) :
  (exists table,
     block_table s search_term block table
     /\ block_symbols s search_term block = fold_left process_row (find_all_tr table) ∅)
  \/ ((forall table, ~ block_table s search_term block table)
      /\ block_symbols s search_term block = ∅).
Proof.
  destruct (snd (fetch_url s (block_url search_term block) default_retries))
    as [[body|]|e] eqn:Hbody.
  2,3: right; assert (forall table, ~ block_table s search_term block table) as Hnone
         by (intros table (body' & soup' & Hb & _); congruence);
       split; [exact Hnone|now apply block_symbols_no_table].
  destruct (html_parser body) as [soup|e] eqn:Hsoup.
  2: right; assert (forall table, ~ block_table s search_term block table) as Hnone
       by (intros table (body' & soup' & Hb & Hs & _); congruence);
     split; [exact Hnone|now apply block_symbols_no_table].
  destruct (find_table soup) as [table|] eqn:Htable.
  2: right; assert (forall table, ~ block_table s search_term block table) as Hnone
       by (intros table (body' & soup' & Hb & Hs & Ht); congruence);
     split; [exact Hnone|now apply block_symbols_no_table].
  left. exists table.
  assert (block_table s search_term block table) as Ht by (exists body, soup; auto).
  split; [exact Ht|now apply block_symbols_table].
Qed.

(** X5. A string is among the symbols of a block exactly when the block
    request succeeded within its retries, the parser found the table in the
    body, and some row of the table has a Symbol cell whose stripped text
    is that string and is not empty. *)
Theorem process_block_symbols (s : session) (search_term : string) (block : Z) (x : string) :
  x ∈ block_symbols s search_term block
  <-> exists body soup table row symbol_cell,
        snd (fetch_url s (block_url search_term block) default_retries) = Ret (Some body)
        /\ html_parser body = Ret soup
        /\ find_table soup = Some table
        /\ In row (find_all_tr table)
        /\ find_symbol_td row = Some symbol_cell
        /\ x = strip (text symbol_cell)
        /\ x <> "".
Proof.
  split.
  - intros Hx.
    destruct (block_symbols_cases s search_term block)
      as [(table & (body & soup & Hbody & Hsoup & Htable) & Heq) | [_ Heq]];
      rewrite Heq in Hx; [|now apply not_elem_of_empty in Hx].
    apply process_rows_elem in Hx as [Hx|(row & Hin & cell & Hcell & Hstrip & Hne)];
      [now apply not_elem_of_empty in Hx|].
    exists body, soup, table, row, cell. auto 10.
  - intros (body & soup & table & row & cell & Hbody & Hsoup & Htable & Hin & Hcell & Heq & Hne).
    rewrite (block_symbols_table s search_term block table)
      by (exists body, soup; auto).
    apply process_rows_elem. right. exists row. split; [exact Hin|].
    exists cell. auto.
Qed.

(** X6. Every symbol that [process_block] returns is a non-empty string
    without whitespace at either end, and a page contributes at most one
    symbol per row of its table. *)
Theorem process_block_trimmed (s : session) (search_term : string) (block : Z) :
  (forall x, x ∈ block_symbols s search_term block -> x <> "" /\ strip x = x)
  /\ (forall table,
        block_table s search_term block table ->
        (size (block_symbols s search_term block) <= List.length (find_all_tr table))%nat).
Proof.
  split.
  - intros x Hx.
    destruct (block_symbols_cases s search_term block) as [(table & _ & Heq) | [_ Heq]];
      rewrite Heq in Hx; [|now apply not_elem_of_empty in Hx].
    apply process_rows_elem in Hx as [Hx|(row & _ & cell & _ & -> & Hne)];
      [now apply not_elem_of_empty in Hx|].
    split; [exact Hne|apply strip_idemp].
  - intros table Htable. rewrite (block_symbols_table _ _ _ _ Htable).
    etransitivity; [apply process_rows_size|]. rewrite size_empty. lia.
Qed.

End Block.

Lemma process_block_trimmed_witness :
  "CC100" ∈ block_symbols (bs4 := line_table) one_bad_block "CC" 100
  /\ "CC100" <> "" /\ strip "CC100" = "CC100".
Proof.
  assert ("CC100" ∈ block_symbols (bs4 := line_table) one_bad_block "CC" 100) as Hin
    by (apply (bool_decide_unpack _); vm_compute; exact I).
  split; [exact Hin|].
  exact (proj1 (process_block_trimmed (bs4 := line_table) one_bad_block "CC" 100) _ Hin).
Defined.

(** ** The symbols of a search term *)

Lemma range_empty (start stop step : Z) : stop <= start -> range start stop step = [].
Proof.
  intros Hstop. unfold range. destruct (Z.leb_spec step 0); [reflexivity|].
  replace (Z.to_nat ((stop - start + step - 1) / step)) with 0%nat; [reflexivity|].
  assert ((stop - start + step - 1) / step < 1); [|lia].
  apply Z.div_lt_upper_bound; lia.
Qed.

Lemma size_union_le (X Y : gset string) : (size (X ∪ Y) <= size X + size Y)%nat.
Proof.
  rewrite size_union_alt.
  assert (size (Y ∖ X) <= size Y)%nat; [|lia].
  apply subseteq_size, subseteq_difference_l. reflexivity.
Qed.

Lemma size_union_list_le (k : nat) (sets : list (gset string)) :
  Forall (fun X => (size X <= k)%nat) sets ->
  (size (⋃ sets) <= k * List.length sets)%nat.
Proof.
  induction 1 as [|X sets HX _ IH].
  - rewrite union_list_nil, size_empty. lia.
  - rewrite union_list_cons. etransitivity; [apply size_union_le|]. simpl. lia.
Qed.

Section Term.

Context `{bs4 : BeautifulSoup}.

(** X7. When the probe reports a count that is zero or negative, no block
    is planned and the search term returns the empty set: a negative count
    read from the page does no harm. *)
Theorem process_search_term_no_count (s : session) (search_term : string) (count : Z) :
  probe_count s search_term = Ret count ->
  count <= 0 ->
  plan_tasks s search_term count = []
  /\ process_search_term s search_term = Ret ∅.
Proof.
  intros Hprobe Hcount.
  assert (range 0 (Z.min count 9000) 100 = []) as Hrange by (apply range_empty; lia).
  split.
  - now rewrite plan_tasks_map, Hrange.
  - rewrite (process_search_term_probed s search_term count Hprobe).
    now rewrite planned_offsets_range, Hrange.
Qed.

(** X8. If no planned block gives more than 100 symbols, as the page size
    of 100 in the block URL asks, a search term returns at most 100 symbols
    per planned block, so at most 9000; and with a probed count of at most
    8900 it returns fewer than 9000, so that [main] does not refine it. *)
Theorem process_search_term_size (s : session) (search_term : string) (count : Z) :
  probe_count s search_term = Ret count ->
  (forall block, In block (planned_offsets s search_term count) ->
                 (size (block_symbols s search_term block) <= 100)%nat) ->
  Z.of_nat (size (term_symbols s search_term))
    <= 100 * Z.of_nat (List.length (planned_offsets s search_term count))
  /\ Z.of_nat (size (term_symbols s search_term)) <= 9000
  /\ (count <= 8900 -> saturated s search_term = false).
Proof.
  intros Hprobe Hpages.
  assert (Z.of_nat (size (term_symbols s search_term))
          <= 100 * Z.of_nat (List.length (planned_offsets s search_term count))) as Hsize.
  { rewrite term_symbols_eq, Hprobe.
    pose proof (size_union_list_le 100
                  (List.map (block_symbols s search_term)
                            (planned_offsets s search_term count))) as H.
    rewrite length_map in H.
    assert (Forall (fun X : gset string => (size X <= 100)%nat)
              (List.map (block_symbols s search_term)
                        (planned_offsets s search_term count))) as Hall.
    { apply Forall_forall. intros X HX. apply list_elem_of_In, in_map_iff in HX
        as (b & <- & Hb). now apply Hpages. }
    specialize (H Hall). lia. }
  assert (forall bound, Z.min count 9000 <= 100 * bound -> 0 <= bound ->
            Z.of_nat (List.length (planned_offsets s search_term count)) <= bound) as Hlen.
  { intros bound Hb Hnn. rewrite planned_offsets_range, range_length by lia.
    assert ((Z.min count 9000 - 0 + 100 - 1) / 100 < bound + 1); [|lia].
    apply Z.div_lt_upper_bound; lia. }
  split; [exact Hsize|]. split.
  - specialize (Hlen 90 ltac:(lia) ltac:(lia)). lia.
  - intros Hcount. unfold saturated. fold (term_symbols s search_term).
    apply Z.leb_gt. specialize (Hlen 89 ltac:(lia) ltac:(lia)). lia.
Qed.

End Term.

Lemma process_search_term_no_count_witness :
  probe_count (with_probe_page one_bad_block "CC" "Stocks (-5)") "CC" = Ret (-5)
  /\ -5 <= 0
  /\ process_search_term (bs4 := line_table)
       (with_probe_page one_bad_block "CC" "Stocks (-5)") "CC" = Ret ∅.
Proof.
  assert (probe_count (with_probe_page one_bad_block "CC" "Stocks (-5)") "CC" = Ret (-5))
    as Hprobe by reflexivity.
  assert (-5 <= 0) as Hcount by lia.
  split; [exact Hprobe|]. split; [exact Hcount|].
  exact (proj2 (process_search_term_no_count (bs4 := line_table)
                  (with_probe_page one_bad_block "CC" "Stocks (-5)") "CC" (-5)
                  Hprobe Hcount)).
Defined.

Lemma process_search_term_size_witness :
  probe_count one_bad_block "CC" = Ret 550
  /\ (forall block, In block (planned_offsets one_bad_block "CC" 550) ->
        (size (block_symbols (bs4 := line_table) one_bad_block "CC" block) <= 100)%nat)
  /\ 550 <= 8900
  /\ saturated (bs4 := line_table) one_bad_block "CC" = false.
Proof.
  assert (probe_count one_bad_block "CC" = Ret 550) as Hprobe by reflexivity.
  assert (forall block, In block (planned_offsets one_bad_block "CC" 550) ->
            (size (block_symbols (bs4 := line_table) one_bad_block "CC" block) <= 100)%nat)
    as Hpages.
  { change (planned_offsets one_bad_block "CC" 550) with [0; 100; 200; 300; 400; 500].
    intros block Hin. simpl in Hin.
    repeat (destruct Hin as [<- | Hin]; [vm_compute; lia|]). destruct Hin. }
  split; [exact Hprobe|]. split; [exact Hpages|]. split; [lia|].
  apply (process_search_term_size (bs4 := line_table) one_bad_block "CC" 550 Hprobe Hpages).
  lia.
Defined.

(** ** What [main] collects and how many terms it processes *)

Lemma union_list_flat_map {X Y : Type} (f : Y -> gset string) (g : X -> list Y) (xs : list X) :
  ⋃ (List.map f (flat_map g xs)) = ⋃ (List.map (fun x => ⋃ (List.map f (g x))) xs).
Proof.
  induction xs as [|x xs IH]; [reflexivity|].
  cbn [flat_map List.map]. rewrite map_app, union_list_app_L, union_list_cons.
  now rewrite IH.
Qed.

Lemma length_flat_map_filter {X Y : Type} (f : X -> list Y) (p : X -> bool) (k : nat) (xs : list X) :
  (forall x, List.length (f x) = if p x then S k else 1%nat) ->
  List.length (flat_map f xs) = (List.length xs + k * List.length (List.filter p xs))%nat.
Proof.
  intros Hf. induction xs as [|x xs IH]; [simpl; lia|].
  cbn [flat_map List.filter]. rewrite length_app, IH, Hf.
  destruct (p x); simpl; lia.
Qed.

Lemma Ret_inj {A : Type} (a b : A) : Ret a = Ret b -> a = b.
Proof. now intros [= ->]. Qed.

Section Collect.

Context `{bs4 : BeautifulSoup}.

Lemma prefix_symbols_calls (s : session) (c1 c2 : string) :
  prefix_symbols s c1 c2 = ⋃ (List.map (term_symbols s) (prefix_calls s c1 c2)).
Proof.
  unfold prefix_symbols, prefix_calls. cbn [List.map]. rewrite union_list_cons.
  destruct (saturated s (c1 +:+ c2)); [reflexivity|].
  cbn [List.map]. now rewrite union_list_nil.
Qed.

Lemma rounds_last_total (s : session) (ps : list (string * string)) :
  forall st,
    ps <> [] ->
    last (totals (fold_left (fun st p => after_prefix s p.1 p.2 st) ps st))
    = Some (Z.of_nat (size (all_symbols
               (fold_left (fun st p => after_prefix s p.1 p.2 st) ps st)))).
Proof.
  induction ps as [|p ps IH]; intros st Hne; [now elim Hne|].
  cbn [fold_left]. destruct ps as [|q ps].
  - cbn [fold_left after_prefix totals all_symbols]. apply last_snoc.
  - apply IH. discriminate.
Qed.

(** X9. [main] returns the union of what [process_search_term] returned
    for the search terms it processed: a symbol is in the final set exactly
    when some processed term returned it. The last total that [main] logs
    is the size of the final set. *)
Theorem main_collects (s : session) :
  exists st,
    main s = Ret st
    /\ all_symbols st = ⋃ (List.map (term_symbols s) (calls st))
    /\ (forall x, x ∈ all_symbols st
                  <-> exists search_term symbols,
                        In search_term (calls st)
                        /\ process_search_term s search_term = Ret symbols
                        /\ x ∈ symbols)
    /\ last (totals st) = Some (Z.of_nat (size (all_symbols st))).
Proof.
  pose proof (main_ret s) as Hmain.
  assert (all_symbols (fold_left (fun st p => after_prefix s p.1 p.2 st) prefixes crawl_start)
          = ⋃ (List.map (term_symbols s)
                 (calls (fold_left (fun st p => after_prefix s p.1 p.2 st)
                           prefixes crawl_start)))) as Hall.
  { rewrite rounds_all_symbols, rounds_calls. cbn [all_symbols calls crawl_start app].
    rewrite (left_id_L ∅ (∪)), union_list_flat_map.
    f_equal. apply map_ext. intros p. apply prefix_symbols_calls. }
  assert (last (totals (fold_left (fun st p => after_prefix s p.1 p.2 st)
                          prefixes crawl_start))
          = Some (Z.of_nat (size (all_symbols
                     (fold_left (fun st p => after_prefix s p.1 p.2 st)
                        prefixes crawl_start))))) as Hlast
    by (apply rounds_last_total; discriminate).
  revert Hmain Hall Hlast.
  generalize (fold_left (fun st p => after_prefix s p.1 p.2 st) prefixes crawl_start).
  intros st Hmain Hall Hlast.
  exists st. split; [exact Hmain|]. split; [exact Hall|]. split; [|exact Hlast].
  intros x. rewrite Hall, elem_of_union_list. split.
  - intros (X & HX & Hx). apply list_elem_of_In, in_map_iff in HX as (t & <- & Ht).
    exists t, (term_symbols s t). split; [exact Ht|].
    split; [apply process_search_term_ret|exact Hx].
  - intros (t & symbols & Ht & Hret & Hx).
    rewrite process_search_term_ret in Hret. apply Ret_inj in Hret as <-.
    exists (term_symbols s t). split; [|exact Hx].
    apply list_elem_of_In, in_map_iff. exists t. split; [reflexivity|exact Ht].
Qed.

Lemma prefix_calls_length (s : session) (p : string * string) :
  List.length (prefix_calls s p.1 p.2)
  = if saturated s (p.1 +:+ p.2) then 37%nat else 1%nat.
Proof.
  unfold prefix_calls, extensions. destruct (saturated s _); [|reflexivity].
  cbn [List.length]. now rewrite length_map, search_chars_eq.
Qed.

(** X10. [main] calls [process_search_term] once for each of the 1296
    prefixes and 36 times more for each prefix that it refines: between
    1296 and 47952 calls in all. *)
Theorem main_call_count (s : session) :
  exists st,
    main s = Ret st
    /\ Z.of_nat (List.length (calls st))
       = 1296 + 36 * Z.of_nat (List.length
                       (List.filter (fun p => saturated s (p.1 +:+ p.2)) prefixes))
    /\ 1296 <= Z.of_nat (List.length (calls st)) <= 47952.
Proof.
  eexists. split; [apply main_ret|].
  rewrite rounds_calls. cbn [calls crawl_start app].
  rewrite (length_flat_map_filter _ (fun p => saturated s (p.1 +:+ p.2)) 36)
    by apply prefix_calls_length.
  assert (List.length prefixes = 1296%nat) as Hlen by reflexivity.
  pose proof (List.filter_length_le (fun p => saturated s (p.1 +:+ p.2)) prefixes) as Hle.
  rewrite Hlen in *. split; lia.
Qed.

End Collect.

(** ** No search term and no URL twice *)

Lemma NoDup_flat_map {X Y : Type} (f : X -> list Y) (xs : list X) :
  NoDup xs ->
  (forall x, x ∈ xs -> NoDup (f x)) ->
  (forall x y z, x ∈ xs -> y ∈ xs -> z ∈ f x -> z ∈ f y -> x = y) ->
  NoDup (flat_map f xs).
Proof.
  induction 1 as [|x xs Hx Hxs IH]; intros Hf Hdisj; [constructor|].
  cbn [flat_map]. apply NoDup_app. split; [|split].
  - apply Hf. left.
  - intros z Hz Hz'. apply list_elem_of_In, in_flat_map in Hz' as (y & Hy & Hzy).
    apply list_elem_of_In in Hy. apply list_elem_of_In in Hzy.
    assert (x = y) as -> by (apply (Hdisj x y z); [left|now right|exact Hz|exact Hzy]).
    contradiction.
  - apply IH.
    + intros y Hy. apply Hf. now right.
    + intros y1 y2 z H1 H2. apply Hdisj; now right.
Qed.

Lemma search_chars_NoDup : NoDup search_chars.
Proof. rewrite search_chars_eq. apply (bool_decide_unpack _). vm_compute. exact I. Qed.

(** No element of the alphabet is the separator of the query string. *)
Lemma search_chars_not_amp (a : ascii) :
  In (String a EmptyString) search_chars -> a <> "&"%char.
Proof.
  rewrite search_chars_eq. simpl. intros H ->.
  repeat (destruct H as [H|H]; [discriminate H|]). destruct H.
Qed.

Lemma string_app_inv_tail (s1 s2 t : string) : s1 +:+ t = s2 +:+ t -> s1 = s2.
Proof.
  revert s2. induction s1 as [|c s1 IH]; intros [|d s2] H.
  - reflexivity.
  - exfalso. apply (f_equal String.length) in H.
    rewrite !string_app_length in H. simpl in H. lia.
  - exfalso. apply (f_equal String.length) in H.
    rewrite !string_app_length in H. simpl in H. lia.
  - rewrite !string_app_cons in H. injection H as -> H. f_equal. now apply IH.
Qed.

Lemma prefixes_NoDup : NoDup prefixes.
Proof.
  unfold prefixes. apply NoDup_flat_map.
  - apply search_chars_NoDup.
  - intros c1 _. apply (NoDup_fmap_2 (fun c2 => (c1, c2))), search_chars_NoDup.
  - intros c1 c1' p _ _ H1 H2.
    apply list_elem_of_In, in_map_iff in H1 as (c2 & <- & _).
    apply list_elem_of_In, in_map_iff in H2 as (c2' & [= -> _] & _). reflexivity.
Qed.

Lemma in_prefixes (p : string * string) :
  p ∈ prefixes -> In p.1 search_chars /\ In p.2 search_chars.
Proof.
  intros Hp. apply list_elem_of_In, in_flat_map in Hp as (c1 & H1 & Hp).
  apply in_map_iff in Hp as (c2 & <- & H2). auto.
Qed.

Section Once.

Context `{bs4 : BeautifulSoup}.

(** The terms of one round begin with the two characters of its prefix. *)
Lemma prefix_calls_shape (s : session) (a1 a2 : ascii) (t : string) :
  In t (prefix_calls s (String a1 "") (String a2 "")) ->
  t = String a1 (String a2 "")
  \/ exists a3, In (String a3 "") search_chars /\ t = String a1 (String a2 (String a3 "")).
Proof.
  unfold prefix_calls. intros [<-|Hin]; [left; reflexivity|].
  destruct (saturated s _); [|destruct Hin].
  unfold extensions in Hin. apply in_map_iff in Hin as (c3 & <- & H3).
  destruct (search_chars_single _ H3) as [a3 ->]. right. eauto.
Qed.

Lemma prefix_calls_NoDup (s : session) (c1 c2 : string) :
  In c1 search_chars -> In c2 search_chars -> NoDup (prefix_calls s c1 c2).
Proof.
  intros [a1 ->]%search_chars_single [a2 ->]%search_chars_single.
  unfold prefix_calls. destruct (saturated s _); [|apply NoDup_singleton].
  apply NoDup_cons. split.
  - intros Hin. apply list_elem_of_In in Hin. unfold extensions in Hin.
    apply in_map_iff in Hin as (c3 & Heq & H3).
    destruct (search_chars_single _ H3) as [a3 ->]. discriminate Heq.
  - unfold extensions.
    assert (Inj (=) (=) (fun c3 => String a1 "" +:+ String a2 "" +:+ c3)) as Hinj.
    { intros c3 c3' Heq.
      now apply (inj (String.append _)), (inj (String.append _)) in Heq. }
    apply (NoDup_fmap_2 _), search_chars_NoDup.
Qed.

Lemma calls_NoDup (s : session) (st : crawl) : main s = Ret st -> NoDup (calls st).
Proof.
  intros Hmain. rewrite main_ret in Hmain. apply Ret_inj in Hmain as <-.
  rewrite rounds_calls. cbn [calls crawl_start app].
  apply NoDup_flat_map.
  - apply prefixes_NoDup.
  - intros p Hp. apply in_prefixes in Hp as [H1 H2]. now apply prefix_calls_NoDup.
  - intros [c1 c2] [d1 d2] t Hp Hq Ht Ht'.
    apply in_prefixes in Hp as [Hc1 Hc2]. apply in_prefixes in Hq as [Hd1 Hd2].
    cbn [fst snd] in *.
    destruct (search_chars_single _ Hc1) as [a1 ->].
    destruct (search_chars_single _ Hc2) as [a2 ->].
    destruct (search_chars_single _ Hd1) as [b1 ->].
    destruct (search_chars_single _ Hd2) as [b2 ->].
    apply list_elem_of_In, prefix_calls_shape in Ht.
    apply list_elem_of_In, prefix_calls_shape in Ht'.
    destruct Ht as [-> | (a3 & _ & ->)], Ht' as [Heq | (b3 & _ & Heq)];
      now injection Heq as -> ->.
Qed.

(** The search terms of [main]: two or three characters of the
    alphabet. *)
Lemma calls_shape (s : session) (st : crawl) (t : string) :
  main s = Ret st -> In t (calls st) ->
  exists a1 a2,
    In (String a1 "") search_chars /\ In (String a2 "") search_chars
    /\ (t = String a1 (String a2 "")
        \/ exists a3, In (String a3 "") search_chars
                      /\ t = String a1 (String a2 (String a3 ""))).
Proof.
  intros Hmain Hin. apply (in_calls s st t Hmain) in Hin as (c1 & c2 & H1 & H2 & Hin).
  destruct (search_chars_single _ H1) as [a1 ->].
  destruct (search_chars_single _ H2) as [a2 ->].
  exists a1, a2. split; [exact H1|]. split; [exact H2|].
  now apply (prefix_calls_shape s).
Qed.

(** A search term of [main] followed by the rest of a query string
    determines the term. *)
Lemma query_term_inj (s : session) (st : crawl) (t1 t2 r1 r2 : string) :
  main s = Ret st -> In t1 (calls st) -> In t2 (calls st) ->
  t1 +:+ String "&" r1 = t2 +:+ String "&" r2 -> t1 = t2 /\ r1 = r2.
Proof.
  intros Hmain H1 H2 Heq.
  destruct (calls_shape s st t1 Hmain H1) as (a1 & a2 & _ & _ & Ht1).
  destruct (calls_shape s st t2 Hmain H2) as (b1 & b2 & _ & _ & Ht2).
  destruct Ht1 as [-> | (a3 & Ha3 & ->)], Ht2 as [-> | (b3 & Hb3 & ->)];
    rewrite !string_app_cons in Heq; change ("" +:+ ?x) with x in Heq;
    inversion Heq; subst; auto.
  - now elim (search_chars_not_amp _ Hb3).
  - now elim (search_chars_not_amp _ Ha3).
Qed.

(** X11. In one run of [main] no search term is processed twice, and
    every request has a URL of its own: the probes of two terms, the blocks
    of two terms or at two offsets, and a probe and a block never share a
    URL. *)
Theorem main_requests_once (s : session) (st : crawl) :
  main s = Ret st ->
  NoDup (calls st)
  /\ forall t1 t2 b1 b2,
       In t1 (calls st) -> In t2 (calls st) ->
       (probe_url t1 = probe_url t2 -> t1 = t2)
       /\ (block_url t1 b1 = block_url t2 b2 -> t1 = t2 /\ b1 = b2)
       /\ block_url t1 b1 <> probe_url t2.
Proof.
  intros Hmain. split; [now apply (calls_NoDup s)|].
  intros t1 t2 b1 b2 H1 H2. split; [|split].
  - unfold probe_url. intros Heq. apply (inj (String.append _)) in Heq.
    now apply (query_term_inj s st t1 t2 _ _ Hmain H1 H2) in Heq.
  - unfold block_url. intros Heq. apply (inj (String.append _)) in Heq.
    apply (query_term_inj s st t1 t2 _ _ Hmain H1 H2) in Heq as [-> Heq].
    split; [reflexivity|].
    injection Heq as Heq. apply string_app_inv_tail in Heq.
    now apply (inj pretty) in Heq.
  - intros Heq.
    assert (t1 = t2) as ->.
    { unfold block_url, probe_url in Heq. apply (inj (String.append _)) in Heq.
      now apply (query_term_inj s st t1 t2 _ _ Hmain H1 H2) in Heq. }
    now apply block_url_not_probe in Heq.
Qed.

End Once.

Lemma in_search_chars_B : In "B" search_chars.
Proof. rewrite search_chars_eq. simpl. auto. Qed.

(** The prefixes AA and AB are both processed, under different URLs. *)
Lemma main_requests_once_witness :
  exists st,
    main (bs4 := no_table) saturated_but_failing = Ret st
    /\ In "AA" (calls st) /\ In "AB" (calls st)
    /\ NoDup (calls st)
    /\ (probe_url "AA" = probe_url "AB" -> "AA" = "AB")
    /\ (block_url "AA" 0 = block_url "AB" 100 -> "AA" = "AB" /\ 0 = 100)
    /\ block_url "AA" 0 <> probe_url "AB".
Proof.
  destruct (main_calls (bs4 := no_table) saturated_but_failing) as (st & Hmain & _).
  assert (In "AA" (calls st)) as HAA.
  { apply (in_calls (bs4 := no_table) saturated_but_failing st "AA" Hmain).
    exists "A", "A". split; [exact in_search_chars_A|]. split; [exact in_search_chars_A|].
    left. reflexivity. }
  assert (In "AB" (calls st)) as HAB.
  { apply (in_calls (bs4 := no_table) saturated_but_failing st "AB" Hmain).
    exists "A", "B". split; [exact in_search_chars_A|]. split; [exact in_search_chars_B|].
    left. reflexivity. }
  destruct (main_requests_once (bs4 := no_table) saturated_but_failing st Hmain)
    as [Hnodup Hurls].
  exists st. split; [exact Hmain|]. split; [exact HAA|]. split; [exact HAB|].
  split; [exact Hnodup|]. exact (Hurls "AA" "AB" 0 100 HAA HAB).
Defined.
